(** * insteon-hub: the local hub buffer protocol engine (insteon/local.py)

    A shallow embedding of [LocalHub] from [insteon/local.py]: the command
    encoder ([_command], [device_on]), the buffer parser ([parse],
    [_parse_ack], [_parse_msg]) and the poll-and-deduplicate loop
    ([poll], [subscribe]).

    Modelling conventions.
    - A Python [str] is a [list ascii]; the hub speaks ASCII hexadecimal.
      [lit "0262"] is the literal ['0262'].
    - A slice [buff[a:b]] is [slice a b buff]; it clamps at the end of the
      string as Python does.  [buff[a:]] is [drop a buff].
    - A raised exception is a value of [exn]; a call that may raise returns
      a [result].
    - [while] loops take a step budget (fuel) and return [None] when the
      budget runs out; termination is then a theorem, not an assumption.
    - The HTTP transport and the wall clock are inputs: the response text
      of every poll and the readings of [time.time()], as integers in a
      fixed time unit. *)

From Stdlib Require Import ZArith Ascii String List HexadecimalString Lia.
From stdpp Require Import gmap list strings.

Local Open Scope list_scope.

(** ** Python strings *)

Abbreviation str := (list ascii).

Definition lit (s : string) : str := list_ascii_of_string s.

(** [s[a:b]] with [0 <= a <= b]. *)
Definition slice (a b : nat) (s : str) : str := take (b - a) (drop a s).

(** [s.startswith(p)]. *)
Definition startswith (p s : str) : bool := bool_decide (take (length p) s = p).

(** [s.partition(sep)] for a non-empty [sep]: the part before the first
    occurrence of [sep], [sep] itself and the part after it; [(s, '', '')]
    when [sep] does not occur. *)
Fixpoint partition (sep s : str) {struct s} : str * str * str :=
  if startswith sep s then ([], sep, drop (length sep) s)
  else match s with
       | [] => ([], [], [])
       | c :: s' => let '(b, d, a) := partition sep s' in (c :: b, d, a)
       end.

(** [s.replace(old, new)] for a non-empty [old]; [skip] counts the
    characters of a match of [old] that are still to be passed over. *)
Fixpoint replace_from (old new : str) (skip : nat) (s : str) : str :=
  match s with
  | [] => []
  | c :: s' =>
      match skip with
      | S k => replace_from old new k s'
      | O => if startswith old s
             then new ++ replace_from old new (length old - 1) s'
             else c :: replace_from old new 0 s'
      end
  end.

Definition replace (old new s : str) : str := replace_from old new 0 s.

(** [str.upper] and [str.lower], character by character: exact on ASCII
    text, which is what the hub and the encoder exchange. *)
Definition upper_char (c : ascii) : ascii :=
  let n := nat_of_ascii c in
  if (97 <=? n)%nat && (n <=? 122)%nat then ascii_of_nat (n - 32) else c.

Definition lower_char (c : ascii) : ascii :=
  let n := nat_of_ascii c in
  if (65 <=? n)%nat && (n <=? 90)%nat then ascii_of_nat (n + 32) else c.

Definition upper (s : str) : str := map upper_char s.
Definition lower (s : str) : str := map lower_char s.

(** The value of a hexadecimal digit. *)
Definition hexval (c : ascii) : option Z :=
  let n := nat_of_ascii c in
  if (48 <=? n)%nat && (n <=? 57)%nat then Some (Z.of_nat (n - 48))
  else if (97 <=? n)%nat && (n <=? 102)%nat then Some (Z.of_nat (n - 87))
  else if (65 <=? n)%nat && (n <=? 70)%nat then Some (Z.of_nat (n - 55))
  else None.

Definition is_hex (c : ascii) : bool :=
  match hexval c with Some _ => true | None => false end.

(** A RawBuffer of the hub: hexadecimal characters only. *)
Definition hex_str (s : str) : Prop := Forall (fun c => is_hex c = true) s.

(** The white space that [int] strips, among ASCII characters. *)
Definition is_space (c : ascii) : bool :=
  let n := nat_of_ascii c in
  ((9 <=? n)%nat && (n <=? 13)%nat) || (n =? 32)%nat.

Fixpoint lstrip (s : str) : str :=
  match s with
  | c :: s' => if is_space c then lstrip s' else s
  | [] => []
  end.

Definition strip (s : str) : str := rev (lstrip (rev (lstrip s))).

(** The digits of [int(s, 16)]: hexadecimal digits, single underscores
    allowed between two digits. *)
Fixpoint int16_digits (acc : Z) (after_digit : bool) (s : str) : option Z :=
  match s with
  | [] => if after_digit then Some acc else None
  | c :: s' =>
      if bool_decide (c = "_"%char)
      then (if after_digit then int16_digits acc false s' else None)
      else match hexval c with
           | Some d => int16_digits (16 * acc + d) true s'
           | None => None
           end
  end.

(** [int(s, 16)]: white space stripped, an optional sign, an optional
    [0x] prefix, then the digits; [None] stands for [ValueError]. *)
Definition int16 (s : str) : option Z :=
  let s := strip s in
  let '(neg, s) :=
    match s with
    | c :: s' =>
        if bool_decide (c = "-"%char) then (true, s')
        else if bool_decide (c = "+"%char) then (false, s')
        else (false, s)
    | [] => (false, s)
    end in
  let '(pre, s) :=
    match s with
    | z :: x :: s' =>
        if bool_decide (z = "0"%char)
           && (bool_decide (x = "x"%char) || bool_decide (x = "X"%char))
        then (true, s') else (false, s)
    | _ => (false, s)
    end in
  let s := match s with
           | c :: s' => if pre && bool_decide (c = "_"%char) then s' else s
           | [] => s
           end in
  match int16_digits 0 false s with
  | Some v => Some (if neg : bool then (- v)%Z else v)
  | None => None
  end.

(** [hex(n)] of a Python integer. *)
Definition hex (n : Z) : str :=
  (if (n <? 0)%Z then lit "-" else []) ++ lit "0x"
  ++ lit (NilZero.string_of_uint (N.to_hex_uint (Z.abs_N n))).

(** ** Exceptions and results *)

Inductive exn : Type :=
| BufferParsingError
| BufferExhausted
| ValueError
| IndexError.

Inductive result (A : Type) : Type :=
| Ok (a : A)
| Raise (e : exn).

Arguments Ok {A} a.
Arguments Raise {A} e.

(** ** Records of the parser *)

(** The value under ['status']: an integer, or a string for an
    unrecognised command. *)
Inductive pyval : Type :=
| PInt (z : Z)
| PStr (s : str).

(** The dict built by [_parse_msg]. *)
Record msg : Type := Msg {
  msg_from : str;
  msg_to : str;
  msg_flags : str;
  msg_status : pyval;
  msg_type : str
}.

(** The dict built by [_parse_ack]. *)
Record ack : Type := Ack {
  ack_device : str;
  ack_flags : str;
  ack_command : str;
  ack_response : list msg
}.

(** [ack['response'].append(msg)]. *)
Definition append_response (a : ack) (m : msg) : ack :=
  {| ack_device := ack_device a;
     ack_flags := ack_flags a;
     ack_command := ack_command a;
     ack_response := ack_response a ++ [m] |}.

(** ** Command encoder *)

(** The [msg] of [_command]: the lower-cased command string. *)
Definition command_msg (device_id cmd1 cmd2 flags : str) : str :=
  let _pass_through := lit "0262" in
  lower (_pass_through ++ device_id ++ flags ++ cmd1 ++ cmd2).

(** [_command]: the path of the request sent to the hub. *)
Definition _command (device_id cmd1 cmd2 flags : str) : str :=
  lit "/3?" ++ command_msg device_id cmd1 cmd2 flags ++ lit "=I=3".

(** The [cmd2] that [device_on] computes from [level]. *)
Definition device_on_cmd2 (level : Z) : str :=
  upper (replace (lit "0x") [] (hex level)).

Definition device_on (device_id : str) (level : Z) : str :=
  _command device_id (lit "11") (device_on_cmd2 level) (lit "0F").

Definition device_off (device_id : str) : str :=
  _command device_id (lit "13") (lit "00") (lit "0F").

Definition device_status (device_id : str) : str :=
  _command device_id (lit "19") (lit "00") (lit "0F").

(** ** Buffer parser *)

(** The command tag of an Ack. *)
Definition ack_command_of (_cmd1 _cmd2 : str) : str :=
  if bool_decide (_cmd1 = lit "19") then lit "status_request"
  else if bool_decide (_cmd1 = lit "11") then lit "on"
  else if bool_decide (_cmd1 = lit "13") then lit "off"
  else lit "unknown[" ++ _cmd1 ++ lit "::" ++ _cmd2 ++ lit "]".

Definition _parse_ack (buff : str) : result (ack * str) :=
  let _pass_through := slice 0 4 buff in
  let _id := slice 4 10 buff in
  let _flags := slice 10 12 buff in
  let _cmd1 := slice 12 14 buff in
  let _cmd2 := slice 14 16 buff in
  let _ack := slice 16 18 buff in
  if bool_decide (_pass_through = lit "0262") && bool_decide (_ack = lit "06")
  then
    let buff := drop 18 buff in
    let command := ack_command_of _cmd1 _cmd2 in
    Ok ({| ack_device := _id;
           ack_flags := _flags;
           ack_command := command;
           ack_response := [] |}, buff)
  else Raise BufferParsingError.

(** The type tag of a Message. *)
Definition msg_type_of (_cmd1 : str) : str :=
  if bool_decide (_cmd1 = lit "19") then lit "status"
  else if bool_decide (_cmd1 = lit "11") then lit "on"
  else if bool_decide (_cmd1 = lit "13") then lit "off"
  else _cmd1.

(** The status of a Message; [int] may raise [ValueError]. *)
Definition msg_status_of (_cmd1 _cmd2 : str) : result pyval :=
  if bool_decide (_cmd1 = lit "11") || bool_decide (_cmd1 = lit "13")
     || bool_decide (_cmd1 = lit "19")
  then match int16 _cmd2 with
       | Some z => Ok (PInt z)
       | None => Raise ValueError
       end
  else Ok (PStr (lit "unknown[" ++ _cmd1 ++ lit "::" ++ _cmd2 ++ lit "]")).

Definition _parse_msg (buff : str) : result (msg * str) :=
  match buff !! 22%nat with
  | None => Raise BufferExhausted
  | Some _ =>
      let _msg_flag := slice 0 4 buff in
      let _from := slice 4 10 buff in
      let _to := slice 10 16 buff in
      let _flags := slice 16 18 buff in
      let _cmd1 := slice 18 20 buff in
      let _cmd2 := slice 20 22 buff in
      if bool_decide (_msg_flag = lit "0250")
      then
        let buff := drop 20 buff in
        match msg_status_of _cmd1 _cmd2 with
        | Raise e => Raise e
        | Ok status =>
            let _type := msg_type_of _cmd1 in
            Ok ({| msg_from := _from;
                   msg_to := _to;
                   msg_flags := _flags;
                   msg_status := status;
                   msg_type := _type |}, buff)
        end
      else Raise BufferParsingError
  end.

(** The inner loop of [parse], [while True: msg, buff = _parse_msg(buff);
    ack['response'].append(msg)]: it ends only by an exception, and gives
    the Ack and the buffer as they are then, with the exception. *)
Fixpoint read_msgs (fuel : nat) (a : ack) (buff : str)
  : option (ack * str * exn) :=
  match fuel with
  | O => None
  | S fuel =>
      match _parse_msg buff with
      | Ok (m, buff') => read_msgs fuel (append_response a m) buff'
      | Raise e => Some (a, buff, e)
      end
  end.

(** The outer loop of [parse], [while buff: ...]. *)
Fixpoint parse_loop (fuel : nat) (buffer_contents : list ack) (buff : str)
  : option (result (list ack)) :=
  match fuel with
  | O => None
  | S fuel =>
      match buff with
      | [] => Some (Ok buffer_contents)
      | _ :: _ =>
          match _parse_ack buff with
          | Raise BufferParsingError =>
              let old_buff := buff in
              let '(_, delim, rest) := partition (lit "0262") buff in
              let buff := delim ++ rest in
              if bool_decide (old_buff = buff)
              then Some (Ok buffer_contents)
              else parse_loop fuel buffer_contents buff
          | Raise e => Some (Raise e)
          | Ok (a, buff) =>
              match read_msgs fuel a buff with
              | None => None
              | Some (a, buff, BufferParsingError) =>
                  parse_loop fuel (buffer_contents ++ [a]) buff
              | Some (_, buff, BufferExhausted) =>
                  parse_loop fuel buffer_contents buff
              | Some (_, _, e) => Some (Raise e)
              end
          end
      end
  end.

(** [parse(buff)], with a budget that the loops never use up
    (see [parse_loop_total]). *)
Definition parse (buff : str) : option (result (list ack)) :=
  parse_loop (S (length buff)) [] buff.

(** ** Poll *)

(** [data.split(sep)[1]]: what lies between the first and the second
    occurrence of [sep]; [IndexError] when [sep] does not occur. *)
Definition split_second (sep data : str) : result str :=
  let '(_, delim, rest) := partition sep data in
  match delim with
  | [] => Raise IndexError
  | _ :: _ => let '(piece, _, _) := partition sep rest in Ok piece
  end.

(** [data.split(sep)[0]]. *)
Definition split_first (sep data : str) : str :=
  let '(piece, _, _) := partition sep data in piece.

(** The buffer that [poll] hands to [parse], from the text of the hub's
    answer to [/buffstatus.xml]. *)
Definition poll_data (text : str) : result str :=
  match split_second (lit "<BS>") text with
  | Raise e => Raise e
  | Ok data =>
      let data := split_first (lit "</BS>") data in
      let data := take (length data - 2) data in
      Ok data
  end.

Definition poll (text : str) : option (result (list ack)) :=
  match poll_data text with
  | Raise e => Some (Raise e)
  | Ok data => parse data
  end.

(** ** Subscribe loop *)

(** The state of [subscribe]: the dict [recent_msgs], from the hash of a
    record to the time it was last seen, and the calls made to [callback]
    so far, oldest first. *)
Record sub_state : Type := SubState {
  recent_msgs : gmap Z Z;
  calls : list ack
}.

Definition sub_init : sub_state := {| recent_msgs := ∅; calls := [] |}.

(** [concat] of the response lists: the Messages of a parsed buffer. *)
Definition flatten_responses (acks : list ack) : list msg :=
  concat (map ack_response acks).

Section SubscribeLoop.

(** [self.status_ttl]. *)
Variable status_ttl : Z.

(** [hash(json.dumps(msg))]. *)
Variable fingerprint : ack -> Z.

(** [hsh not in recent_msgs or now - recent_msgs[hsh] > self.status_ttl]. *)
Definition newsworthy (recent : gmap Z Z) (hsh now : Z) : bool :=
  match recent !! hsh with
  | None => true
  | Some seen => bool_decide (now - seen > status_ttl)%Z
  end.

(** The body of [for msg in msgs], with [now] the reading of
    [time.time()] in it. *)
Definition observe (st : sub_state) (o : Z * ack) : sub_state :=
  let '(now, m) := o in
  let hsh := fingerprint m in
  {| recent_msgs := <[hsh := now]> (recent_msgs st);
     calls := if newsworthy (recent_msgs st) hsh now
              then calls st ++ [m] else calls st |}.

(** A run of loop bodies. *)
Definition observe_all (st : sub_state) (obs : list (Z * ack)) : sub_state :=
  fold_left observe obs st.

(** [for msg in msgs: ...], where [clock i] is the reading of
    [time.time()] at the [i]-th record of this cycle. *)
Definition for_msgs (clock : nat -> Z) (st : sub_state) (msgs : list ack)
  : sub_state :=
  observe_all st (imap (fun i m => (clock i, m)) msgs).

(** One turn of [while True]: the hub answers [text]. *)
Definition subscribe_iter (st : sub_state) (cycle : str * (nat -> Z))
  : option (result sub_state) :=
  let '(text, clock) := cycle in
  match poll text with
  | None => None
  | Some (Raise e) => Some (Raise e)
  | Some (Ok msgs) => Some (Ok (for_msgs clock st msgs))
  end.

(** The first turns of [subscribe], one per element of [cycles]; an
    exception of [poll] ends the loop. *)
Fixpoint subscribe_from (st : sub_state) (cycles : list (str * (nat -> Z)))
  : option (result sub_state) :=
  match cycles with
  | [] => Some (Ok st)
  | cycle :: cycles =>
      match subscribe_iter st cycle with
      | Some (Ok st) => subscribe_from st cycles
      | r => r
      end
  end.

Definition subscribe (cycles : list (str * (nat -> Z)))
  : option (result sub_state) :=
  subscribe_from sub_init cycles.

(** The records of a list with hash [h], and the observations of them. *)
Definition with_hash (h : Z) (l : list ack) : list ack :=
  filter (fun m => fingerprint m = h) l.

Definition obs_with_hash (h : Z) (obs : list (Z * ack)) : list (Z * ack) :=
  filter (fun o => fingerprint (snd o) = h) obs.

(** Every two consecutive readings are at most [status_ttl] apart. *)
Fixpoint gaps_within (times : list Z) : Prop :=
  match times with
  | t :: (t' :: _) as rest => (t' - t <= status_ttl)%Z /\ gaps_within rest
  | _ => True
  end.

(** Whether a record last seen at [last] (if ever) is delivered when
    it is observed at [now]. *)
Definition unseen_or_stale (last : option Z) (now : Z) : bool :=
  match last with
  | None => true
  | Some seen => bool_decide (now - seen > status_ttl)%Z
  end.

(** The calls that a run of observations of one hash gives rise to,
    and the time the hash was last seen after it. *)
Fixpoint delivered (last : option Z) (obs : list (Z * ack)) : list ack :=
  match obs with
  | [] => []
  | (now, m) :: obs =>
      (if unseen_or_stale last now then [m] else []) ++ delivered (Some now) obs
  end.

Fixpoint last_time (last : option Z) (obs : list (Z * ack)) : option Z :=
  match obs with
  | [] => last
  | (now, _) :: obs => last_time (Some now) obs
  end.

(** The time the hash [h] was last seen when the observations
    [earlier] have been made from a dict [recent]: the time of the
    latest of them with that hash or, when there is none, the entry of
    the dict. *)
Definition last_seen (recent : gmap Z Z) (earlier : list (Z * ack)) (h : Z)
  : option Z :=
  last_time (recent !! h) (obs_with_hash h earlier).

(** Whether the [i]-th observation of [obs] is of a record whose hash
    is then unseen or was last seen more than [status_ttl] before. *)
Definition due (recent : gmap Z Z) (obs : list (Z * ack)) (i : nat) : bool :=
  match obs !! i with
  | Some (now, m) =>
      unseen_or_stale (last_seen recent (take i obs) (fingerprint m)) now
  | None => false
  end.

(** The records of [obs] that are due, in the order of [obs]. *)
Definition selected (recent : gmap Z Z) (obs : list (Z * ack)) : list ack :=
  concat (imap (fun i o => if due recent obs i then [snd o] else []) obs).

End SubscribeLoop.

(** ** Wire format *)

(** An Ack header on the wire: prefix(4) deviceId(6) flags(2) cmd1(2)
    cmd2(2) ackByte(2). *)
Definition ack_frame (device_id flags cmd1 cmd2 : str) : str :=
  lit "0262" ++ device_id ++ flags ++ cmd1 ++ cmd2 ++ lit "06".

(** A Message frame on the wire: msgFlag(4) from(6) to(6) flags(2) cmd1(2)
    cmd2(2). *)
Definition msg_frame (from to flags cmd1 cmd2 : str) : str :=
  lit "0250" ++ from ++ to ++ flags ++ cmd1 ++ cmd2.

(** The answer of the hub to an encoded command: the command string and
    the ack byte. *)
Definition hub_response (c : str) : str := c ++ lit "06".

(** A hexadecimal digit is none of the characters that [int] treats
    apart: white space, a sign, an underscore, the [x] of a prefix. *)
Definition hex_char_plain (c : ascii) : bool :=
  implb (is_hex c)
        (negb (is_space c) && negb (bool_decide (c = "-"%char))
         && negb (bool_decide (c = "+"%char)) && negb (bool_decide (c = "_"%char))
         && negb (bool_decide (c = "x"%char)) && negb (bool_decide (c = "X"%char))).

(** A field of an encoded command: [n] hexadecimal characters. *)
Definition hex_field (n : nat) (s : str) : Prop :=
  length s = n /\ hex_str s.

(** A valid encoded command: deviceId(6), flags(2), cmd1(2), cmd2(2). *)
Definition valid_command (device_id cmd1 cmd2 flags : str) : Prop :=
  hex_field 6 device_id /\ hex_field 2 flags
  /\ hex_field 2 cmd1 /\ hex_field 2 cmd2.

(** ** Shapes of buffers and of parsed records *)

(** No occurrence of [sep] starts at one of the first [n] positions of
    [s]. *)
Definition no_match_before (sep : str) (n : nat) (s : str) : Prop :=
  forall i : nat, (i < n)%nat -> startswith sep (drop i s) = false.

(** The three tags a recognised command byte is mapped to in an Ack. *)
Definition ack_tags : list str :=
  [lit "status_request"; lit "on"; lit "off"].

(** The three tags a recognised command byte is mapped to in a Message. *)
Definition msg_tags : list str := [lit "status"; lit "on"; lit "off"].

(** The string kept for an unrecognised command. *)
Definition unknown_tag (cmd1 cmd2 : str) : str :=
  lit "unknown[" ++ cmd1 ++ lit "::" ++ cmd2 ++ lit "]".

(** A Message as [_parse_msg] builds it: fields of the widths of the
    frame; an integer status comes with one of the three tags, a string
    status names the two command bytes and the type is the first. *)
Definition msg_ok (m : msg) : Prop :=
  length (msg_from m) = 6%nat /\ length (msg_to m) = 6%nat
  /\ length (msg_flags m) = 2%nat
  /\ match msg_status m with
     | PInt _ => msg_type m ∈ msg_tags
     | PStr s => length (msg_type m) = 2%nat
                 /\ exists cmd2, length cmd2 = 2%nat
                                 /\ s = unknown_tag (msg_type m) cmd2
     end.

(** An Ack as [parse] returns it. *)
Definition ack_ok (a : ack) : Prop :=
  length (ack_device a) = 6%nat /\ length (ack_flags a) = 2%nat
  /\ (ack_command a ∈ ack_tags
      \/ exists cmd1 cmd2, length cmd1 = 2%nat /\ length cmd2 = 2%nat
                           /\ ack_command a = unknown_tag cmd1 cmd2)
  /\ Forall msg_ok (ack_response a).

(** An integer status is a byte. *)
Definition status_is_byte (m : msg) : Prop :=
  match msg_status m with
  | PInt z => (0 <= z <= 255)%Z
  | PStr _ => True
  end.

(** [acc + acks] on the outcome of a parse. *)
Definition prepend_acks (acc : list ack) (r : option (result (list ack)))
  : option (result (list ack)) :=
  match r with
  | Some (Ok acks) => Some (Ok (acc ++ acks))
  | r => r
  end.

(** ** Hub address *)

(** [s.split(sep)] for a non-empty [sep]; [cur] is the piece being
    read and [skip] counts the characters of a match of [sep] that are
    still to be passed over. *)
Fixpoint split_from (sep : str) (skip : nat) (cur s : str) : list str :=
  match s with
  | [] => [cur]
  | c :: s' =>
      match skip with
      | S k => split_from sep k cur s'
      | O => if startswith sep s
             then cur :: split_from sep (length sep - 1) [] s'
             else split_from sep 0 (cur ++ [c]) s'
      end
  end.

Definition split (sep s : str) : list str := split_from sep 0 [] s.

(** The end of [InsteonAPI.discover_local_hub] (insteon/api.py), from the
    [href] of the first link of the page on: what follows the first [//]
    is split at the colons and unpacked as [ip, port]. *)
Definition host_port_of (local_url : str) : result (str * str) :=
  let '(_, _, local) := partition (lit "//") local_url in
  match split (lit ":") local with
  | [ip; port] => Ok (ip, port)
  | _ => Raise ValueError
  end.

(** [self.url] of [LocalHub.__init__]. *)
Definition hub_url (host port : str) : str :=
  lit "http://" ++ host ++ lit ":" ++ port.

(** ** Sample values *)

(** The Ack for [on] sent to device AABBCC, without responses. *)
Definition sample_ack : ack := Ack (lit "AABBCC") (lit "0F") (lit "on") [].

(** Another device's Ack. *)
Definition other_ack : ack := Ack (lit "112233") (lit "0F") (lit "off") [].

(** A hash for the samples: it tells records apart by their device. *)
Definition sample_hash (a : ack) : Z :=
  Z.of_nat (length (filter (fun c => c = "A"%char) (ack_device a))).

(** A hub answer whose buffer is one Ack header and 23 characters that
    are no Message, between the markers and before the two-character
    trailer. *)
Definition sample_text : str :=
  lit "<response><BS>0262AABBCC0F1100060000000000000000000000000</BS></response>".

(** ** Tactics *)

(** Split a string of known length into its characters. *)
Ltac explode_fields :=
  repeat match goal with
         | H : length ?s = S _ |- _ =>
             destruct s; [discriminate H|]; simpl in H; apply Nat.succ_inj in H
         | H : length ?s = O |- _ =>
             destruct s; [clear H | discriminate H]
         end.

(** ** First checks *)

Example parse_ack_then_garbage :
  parse (lit "0262AABBCC0F11000600000000000000000000000")
  = Some (Ok [Ack (lit "AABBCC") (lit "0F") (lit "on") []]).
Proof. vm_compute. reflexivity. Qed.

Example parse_single_ack :
  parse (lit "0262AABBCC0F110006") = Some (Ok []).
Proof. vm_compute. reflexivity. Qed.

Example int16_examples :
  int16 (lit "FF") = Some 255%Z /\ int16 (lit "0a") = Some 10%Z
  /\ int16 (lit "ZZ") = None /\ int16 (lit " 7") = Some 7%Z
  /\ int16 (lit "-f") = Some (-15)%Z /\ int16 (lit "0x") = None
  /\ int16 (lit "1_") = None.
Proof. vm_compute. repeat split; reflexivity. Qed.

Example device_on_cmd2_examples :
  device_on_cmd2 255 = lit "FF" /\ device_on_cmd2 128 = lit "80".
Proof. vm_compute. split; reflexivity. Qed.

(** ** Strings: basic facts *)

Lemma slice_length_le (a b : nat) (s : str) :
  length (slice a b s) = (b - a)%nat -> (b <= a \/ b <= length s)%nat.
Proof.
  unfold slice. rewrite length_take, length_drop. lia.
Qed.

Lemma partition_rest (sep s b d a : str) :
  partition sep s = (b, d, a) ->
  d ++ a = s \/ (length (d ++ a) < length s)%nat.
Proof.
  revert b d a. induction s as [|c s IH]; intros b d a.
  - simpl. unfold startswith. case_bool_decide as Hp.
    + intros [= <- <- <-]. left. rewrite take_nil in Hp. rewrite <- Hp. reflexivity.
    + intros [= <- <- <-]. left. reflexivity.
  - cbn [partition]. unfold startswith. case_bool_decide as Hp.
    + intros [= <- <- <-]. left.
      rewrite <- Hp at 1. apply take_drop.
    + destruct (partition sep s) as [[b' d'] a'] eqn:E.
      intros [= <- <- <-]. right.
      destruct (IH _ _ _ eq_refl) as [-> | Hlt]; simpl; lia.
Qed.

Lemma partition_hex (sep s b d a : str) :
  partition sep s = (b, d, a) -> hex_str s -> hex_str (d ++ a).
Proof.
  revert b d a. induction s as [|c s IH]; intros b d a.
  - simpl. unfold startswith. case_bool_decide as Hp.
    + intros [= <- <- <-] _. rewrite take_nil in Hp. rewrite <- Hp. constructor.
    + intros [= <- <- <-] _. constructor.
  - cbn [partition]. unfold startswith. case_bool_decide as Hp.
    + intros [= <- <- <-] Hs. rewrite <- Hp at 1. rewrite take_drop. exact Hs.
    + destruct (partition sep s) as [[b' d'] a'] eqn:E.
      intros [= <- <- <-] Hs. apply (IH _ _ _ eq_refl).
      apply Forall_cons in Hs. tauto.
Qed.

(** ** The frame readers consume input *)

Lemma _parse_ack_Ok (buff buff' : str) (a : ack) :
  _parse_ack buff = Ok (a, buff') ->
  buff' = drop 18 buff /\ (18 <= length buff)%nat.
Proof.
  unfold _parse_ack.
  destruct (bool_decide (slice 0 4 buff = lit "0262")); simpl; [|discriminate].
  case_bool_decide as Hack; [|discriminate].
  intros [= <- <-]. split; [reflexivity|].
  apply (f_equal length) in Hack.
  apply slice_length_le in Hack. lia.
Qed.

Lemma _parse_ack_exn (buff : str) (e : exn) :
  _parse_ack buff = Raise e -> e = BufferParsingError.
Proof.
  unfold _parse_ack.
  destruct (_ && _); [discriminate|]. intros [= <-]. reflexivity.
Qed.

Lemma _parse_msg_Ok (buff buff' : str) (m : msg) :
  _parse_msg buff = Ok (m, buff') ->
  buff' = drop 20 buff /\ (23 <= length buff)%nat.
Proof.
  unfold _parse_msg.
  destruct (buff !! 22%nat) as [c|] eqn:E; [|discriminate].
  apply lookup_lt_Some in E.
  case_bool_decide; [|discriminate].
  destruct (msg_status_of _ _); [|discriminate].
  intros [= <- <-]. split; [reflexivity | lia].
Qed.

Lemma _parse_msg_short (buff : str) :
  (length buff < 23)%nat -> _parse_msg buff = Raise BufferExhausted.
Proof.
  intros H. unfold _parse_msg.
  rewrite (lookup_ge_None_2 buff 22) by lia. reflexivity.
Qed.

(** ** Termination of the loops *)

Lemma read_msgs_total (fuel : nat) :
  forall (a : ack) (buff : str),
    (length buff < fuel)%nat ->
    exists a' buff' e,
      read_msgs fuel a buff = Some (a', buff', e)
      /\ (length buff' <= length buff)%nat.
Proof.
  induction fuel as [|fuel IH]; intros a buff Hlen; [lia|].
  cbn [read_msgs].
  destruct (_parse_msg buff) as [[m buff1]|e] eqn:E.
  - apply _parse_msg_Ok in E as [-> Hge].
    destruct (IH (append_response a m) (drop 20 buff)) as (a' & buff' & e & Hr & Hle).
    { rewrite length_drop. lia. }
    exists a', buff', e. split; [exact Hr|].
    rewrite length_drop in Hle. lia.
  - exists a, buff, e. split; [reflexivity | lia].
Qed.

Lemma read_msgs_more_fuel (fuel : nat) :
  forall (a : ack) (buff : str) r (fuel' : nat),
    read_msgs fuel a buff = Some r -> (fuel <= fuel')%nat ->
    read_msgs fuel' a buff = Some r.
Proof.
  induction fuel as [|fuel IH]; intros a buff r fuel' Hr Hle; [discriminate|].
  destruct fuel' as [|fuel']; [lia|].
  cbn [read_msgs] in *.
  destruct (_parse_msg buff) as [[m buff1]|e]; [|exact Hr].
  apply (IH _ _ _ _ Hr). lia.
Qed.

Lemma parse_loop_total (fuel : nat) :
  forall (acc : list ack) (buff : str),
    (length buff < fuel)%nat -> exists r, parse_loop fuel acc buff = Some r.
Proof.
  induction fuel as [|fuel IH]; intros acc buff Hlen; [lia|].
  cbn [parse_loop].
  destruct buff as [|c buff0] eqn:Eb; [eauto|]. rewrite <- Eb in *. clear Eb c buff0.
  destruct (_parse_ack buff) as [[a buff1]|e] eqn:E.
  - apply _parse_ack_Ok in E as [-> Hge].
    destruct (read_msgs_total fuel a (drop 18 buff)) as (a' & buff' & e & Hr & Hle).
    { rewrite length_drop. lia. }
    rewrite Hr. rewrite length_drop in Hle.
    destruct e; eauto; apply IH; lia.
  - rewrite (_parse_ack_exn _ _ E).
    destruct (partition (lit "0262") buff) as [[b d] r] eqn:Ep.
    case_bool_decide as Hsame; [eauto|].
    apply partition_rest in Ep as [Heq | Hlt]; [congruence|].
    apply IH. lia.
Qed.

Lemma parse_loop_more_fuel (fuel : nat) :
  forall (acc : list ack) (buff : str) r (fuel' : nat),
    parse_loop fuel acc buff = Some r -> (fuel <= fuel')%nat ->
    parse_loop fuel' acc buff = Some r.
Proof.
  induction fuel as [|fuel IH]; intros acc buff r fuel' Hr Hle; [discriminate|].
  destruct fuel' as [|fuel']; [lia|].
  cbn [parse_loop] in *.
  destruct buff as [|c buff0] eqn:Eb; [exact Hr|]. rewrite <- Eb in *. clear Eb c buff0.
  destruct (_parse_ack buff) as [[a buff1]|e] eqn:E.
  - destruct (read_msgs fuel a buff1) as [[[a' buff'] e]|] eqn:Er; [|discriminate].
    rewrite (read_msgs_more_fuel fuel _ _ _ fuel' Er) by lia.
    destruct e; try exact Hr; apply (IH _ _ _ _ Hr); lia.
  - destruct e; try exact Hr.
    destruct (partition (lit "0262") buff) as [[b d] r0].
    case_bool_decide; [exact Hr|]. apply (IH _ _ _ _ Hr). lia.
Qed.

(** C5. [parse] terminates on every finite input string, whatever it
    holds: there is one outcome (a returned list or a raised exception)
    that the loop reaches under every step budget above the length of the
    input, and [parse] gives it. *)
Theorem parse_terminates (buff : str) :
  exists r,
    parse buff = Some r
    /\ forall fuel, (length buff < fuel)%nat -> parse_loop fuel [] buff = Some r.
Proof.
  destruct (parse_loop_total (S (length buff)) [] buff) as [r Hr]; [lia|].
  exists r. split; [exact Hr|].
  intros fuel Hf. apply (parse_loop_more_fuel _ _ _ _ _ Hr). lia.
Qed.

(** ** Reading well-formed frames *)

Lemma _parse_ack_frame (device_id flags cmd1 cmd2 rest : str) :
  length device_id = 6%nat -> length flags = 2%nat ->
  length cmd1 = 2%nat -> length cmd2 = 2%nat ->
  _parse_ack (ack_frame device_id flags cmd1 cmd2 ++ rest)
  = Ok (Ack device_id flags (ack_command_of cmd1 cmd2) [], rest).
Proof.
  intros Hid Hfl Hc1 Hc2. explode_fields.
  unfold _parse_ack, ack_frame. reflexivity.
Qed.

(** ** Buffers too short for a Message *)

Lemma parse_loop_short (fuel : nat) :
  forall (acc : list ack) (buff : str),
    (length buff < 23)%nat -> (length buff < fuel)%nat ->
    parse_loop fuel acc buff = Some (Ok acc).
Proof.
  induction fuel as [|fuel IH]; intros acc buff Hshort Hfuel; [lia|].
  cbn [parse_loop].
  destruct buff as [|c buff0] eqn:Eb; [reflexivity|]. rewrite <- Eb in *.
  assert (Hpos : (0 < length buff)%nat) by (rewrite Eb; simpl; lia).
  clear Eb c buff0.
  destruct (_parse_ack buff) as [[a buff1]|e] eqn:E.
  - apply _parse_ack_Ok in E as [-> Hge].
    destruct fuel as [|fuel']; [lia|].
    cbn [read_msgs]. rewrite _parse_msg_short by (rewrite length_drop; lia).
    apply IH; rewrite length_drop; lia.
  - rewrite (_parse_ack_exn _ _ E).
    destruct (partition (lit "0262") buff) as [[b d] r] eqn:Ep.
    case_bool_decide as Hsame; [reflexivity|].
    apply partition_rest in Ep as [Heq | Hlt]; [congruence|].
    apply IH; lia.
Qed.

Lemma parse_ack_then_short (device_id flags cmd1 cmd2 rest : str) :
  length device_id = 6%nat -> length flags = 2%nat ->
  length cmd1 = 2%nat -> length cmd2 = 2%nat ->
  (length rest < 23)%nat ->
  parse (ack_frame device_id flags cmd1 cmd2 ++ rest) = Some (Ok []).
Proof.
  intros Hid Hfl Hc1 Hc2 Hrest. unfold parse.
  set (buff := ack_frame device_id flags cmd1 cmd2 ++ rest).
  assert (Hlen : length buff = (18 + length rest)%nat).
  { unfold buff, ack_frame. rewrite !length_app, Hid, Hfl, Hc1, Hc2. reflexivity. }
  cbn [parse_loop].
  destruct buff as [|c buff0] eqn:Eb; [discriminate Hlen|]. rewrite <- Eb in *.
  unfold buff at 1. rewrite _parse_ack_frame by assumption.
  rewrite Hlen. cbn [read_msgs Nat.add].
  rewrite _parse_msg_short by lia.
  apply parse_loop_short; lia.
Qed.

Lemma msg_frame_fields (from to flags cmd1 cmd2 rest : str) :
  length from = 6%nat -> length to = 6%nat -> length flags = 2%nat ->
  length cmd1 = 2%nat -> length cmd2 = 2%nat ->
  let buff := msg_frame from to flags cmd1 cmd2 ++ rest in
  slice 0 4 buff = lit "0250" /\ slice 4 10 buff = from
  /\ slice 10 16 buff = to /\ slice 16 18 buff = flags
  /\ slice 18 20 buff = cmd1 /\ slice 20 22 buff = cmd2
  /\ drop 20 buff = cmd2 ++ rest
  /\ length buff = (22 + length rest)%nat.
Proof.
  intros Hf Ht Hfl Hc1 Hc2. explode_fields.
  unfold msg_frame. repeat split; reflexivity.
Qed.

Lemma _parse_msg_frame (from to flags cmd1 cmd2 rest : str) (status : pyval) :
  length from = 6%nat -> length to = 6%nat -> length flags = 2%nat ->
  length cmd1 = 2%nat -> length cmd2 = 2%nat ->
  msg_status_of cmd1 cmd2 = Ok status ->
  (0 < length rest)%nat ->
  _parse_msg (msg_frame from to flags cmd1 cmd2 ++ rest)
  = Ok (Msg from to flags status (msg_type_of cmd1), cmd2 ++ rest).
Proof.
  intros Hf Ht Hfl Hc1 Hc2 Hst Hrest.
  destruct (msg_frame_fields from to flags cmd1 cmd2 rest Hf Ht Hfl Hc1 Hc2)
    as (E0 & E1 & E2 & E3 & E4 & E5 & E6 & E7).
  unfold _parse_msg.
  destruct (lookup_lt_is_Some_2 (msg_frame from to flags cmd1 cmd2 ++ rest) 22)
    as [c Hc]; [lia|].
  rewrite Hc, E0, E1, E2, E3, E4, E5, E6, Hst.
  rewrite bool_decide_eq_true_2 by reflexivity. reflexivity.
Qed.

(** After a Message the cursor stands on its [cmd2], two characters
    before the next frame: neither a Message nor an Ack starts there. *)
Lemma _parse_msg_misaligned (cmd2 from to flags cmd1' cmd2' : str) :
  length cmd2 = 2%nat ->
  length from = 6%nat -> length to = 6%nat -> length flags = 2%nat ->
  length cmd1' = 2%nat -> length cmd2' = 2%nat ->
  _parse_msg (cmd2 ++ msg_frame from to flags cmd1' cmd2')
  = Raise BufferParsingError.
Proof.
  intros Hc Hf Ht Hfl Hc1 Hc2. explode_fields.
  unfold _parse_msg, msg_frame. cbn [app lit list_ascii_of_string lookup list_lookup].
  unfold slice. cbn [drop take Nat.sub].
  rewrite bool_decide_eq_false_2; [reflexivity|]. intros [=].
Qed.

Lemma partition_skip (sep s b d a : str) (c : ascii) :
  startswith sep (c :: s) = false ->
  partition sep (c :: s) = (b, d, a) ->
  exists b', partition sep s = (b', d, a).
Proof.
  intros Hno. cbn [partition]. rewrite Hno.
  destruct (partition sep s) as [[b' d'] a'].
  intros [= <- <- <-]. eauto.
Qed.

Lemma parse_loop_misaligned (acc : list ack) (cmd2 from to flags cmd1' cmd2' : str) :
  length cmd2 = 2%nat ->
  length from = 6%nat -> length to = 6%nat -> length flags = 2%nat ->
  length cmd1' = 2%nat -> length cmd2' = 2%nat ->
  forall fuel, (24 < fuel)%nat ->
    parse_loop fuel acc (cmd2 ++ msg_frame from to flags cmd1' cmd2')
    = Some (Ok acc).
Proof.
  intros Hc Hf Ht Hfl Hc1 Hc2 fuel Hfuel.
  destruct fuel as [|fuel]; [lia|].
  assert (Htl : exists tl, msg_frame from to flags cmd1' cmd2'
                           = "0"%char :: "2"%char :: "5"%char :: "0"%char :: tl
                           /\ length tl = 18%nat).
  { exists (from ++ to ++ flags ++ cmd1' ++ cmd2'). split; [reflexivity|].
    rewrite !length_app. lia. }
  destruct Htl as (tl & -> & Htl).
  destruct cmd2 as [|x1 [|x2 [|]]]; try discriminate Hc. clear Hc.
  cbn [parse_loop app].
  unfold _parse_ack at 1. unfold slice at 1. cbn [drop take Nat.sub].
  rewrite bool_decide_eq_false_2 by (intros [=]). cbn [andb].
  destruct (partition (lit "0262") _) as [[b d] r] eqn:Ep.
  apply partition_skip in Ep as [b1 Ep];
    [|apply bool_decide_eq_false_2; intros [=]].
  apply partition_skip in Ep as [b2 Ep];
    [|apply bool_decide_eq_false_2; intros [=]].
  apply partition_rest in Ep.
  assert (Hlen : (length (d ++ r) <= 22)%nat)
    by (destruct Ep as [-> | Hlt]; simpl in *; lia).
  rewrite bool_decide_eq_false_2.
  - apply parse_loop_short; lia.
  - intros Heq. apply (f_equal length) in Heq. simpl in Heq. lia.
Qed.

Lemma msg_frame_length (from to flags cmd1 cmd2 : str) :
  length from = 6%nat -> length to = 6%nat -> length flags = 2%nat ->
  length cmd1 = 2%nat -> length cmd2 = 2%nat ->
  length (msg_frame from to flags cmd1 cmd2) = 22%nat.
Proof.
  intros. unfold msg_frame. rewrite !length_app. simpl. lia.
Qed.

Lemma ack_frame_length (device_id flags cmd1 cmd2 : str) :
  length device_id = 6%nat -> length flags = 2%nat ->
  length cmd1 = 2%nat -> length cmd2 = 2%nat ->
  length (ack_frame device_id flags cmd1 cmd2) = 18%nat.
Proof.
  intros. unfold ack_frame. rewrite !length_app. simpl. lia.
Qed.

(** ** Hexadecimal buffers *)

Lemma hex_char_plain_all (c : ascii) : hex_char_plain c = true.
Proof.
  destruct c as [[] [] [] [] [] [] [] []]; vm_compute; reflexivity.
Qed.

Lemma is_hex_plain (c : ascii) :
  is_hex c = true ->
  is_space c = false /\ bool_decide (c = "-"%char) = false
  /\ bool_decide (c = "+"%char) = false /\ bool_decide (c = "_"%char) = false
  /\ bool_decide (c = "x"%char) = false /\ bool_decide (c = "X"%char) = false
  /\ exists v, hexval c = Some v.
Proof.
  intros Hc. pose proof (hex_char_plain_all c) as Hp.
  unfold hex_char_plain in Hp. rewrite Hc in Hp. cbn [implb] in Hp.
  repeat (apply andb_prop in Hp as [Hp ?]).
  repeat match goal with H : negb _ = true |- _ => apply negb_true_iff in H end.
  unfold is_hex in Hc. destruct (hexval c) as [v|]; [|discriminate].
  repeat split; eauto.
Qed.

Lemma int16_hex_pair (a b : ascii) :
  is_hex a = true -> is_hex b = true -> exists v, int16 [a; b] = Some v.
Proof.
  intros Ha Hb.
  destruct (is_hex_plain a Ha) as (Sa & Ma & Pa & Ua & _ & _ & va & Va).
  destruct (is_hex_plain b Hb) as (Sb & _ & _ & Ub & Xb & XXb & vb & Vb).
  unfold int16, strip. cbn [lstrip]. rewrite Sa. cbn [rev app lstrip].
  rewrite Sb. cbn [rev app]. rewrite Ma, Pa, Xb, XXb.
  rewrite andb_false_r. cbn [andb]. cbn [int16_digits].
  rewrite Ua, Va. rewrite Ub, Vb. eauto.
Qed.

Lemma hex_str_drop (n : nat) (s : str) : hex_str s -> hex_str (drop n s).
Proof. apply Forall_drop. Qed.

Lemma hex_str_slice (a b : nat) (s : str) : hex_str s -> hex_str (slice a b s).
Proof. intros H. unfold slice. apply Forall_take, Forall_drop, H. Qed.

Lemma msg_status_of_hex (cmd1 cmd2 : str) :
  hex_str cmd2 -> length cmd2 = 2%nat ->
  exists status, msg_status_of cmd1 cmd2 = Ok status.
Proof.
  intros Hhex Hlen. unfold msg_status_of.
  destruct (_ || _); [|eauto].
  destruct cmd2 as [|a [|b [|]]]; try discriminate Hlen.
  apply Forall_cons in Hhex as [Ha Hhex].
  apply Forall_cons in Hhex as [Hb _].
  destruct (int16_hex_pair a b Ha Hb) as [v ->]. eauto.
Qed.

Lemma _parse_msg_exn (buff : str) (e : exn) :
  _parse_msg buff = Raise e ->
  e = BufferExhausted \/ e = BufferParsingError
  \/ (e = ValueError /\ ~ hex_str buff).
Proof.
  unfold _parse_msg.
  destruct (buff !! 22%nat) as [c|] eqn:E; [|intros [= <-]; auto].
  apply lookup_lt_Some in E.
  case_bool_decide; [|intros [= <-]; auto].
  destruct (msg_status_of _ _) as [st|e'] eqn:Est; [discriminate|].
  intros [= <-]. right. right.
  assert (Hno : ~ hex_str (slice 20 22 buff)).
  { intros Hh. destruct (msg_status_of_hex (slice 18 20 buff) _ Hh) as [st Hst].
    - unfold slice. rewrite length_take, length_drop. lia.
    - congruence. }
  split.
  - unfold msg_status_of in Est. destruct (_ || _); [|discriminate].
    destruct (int16 _); [discriminate|]. congruence.
  - intros Hh. apply Hno, hex_str_slice, Hh.
Qed.

Lemma read_msgs_exn (fuel : nat) :
  forall (a a' : ack) (buff buff' : str) (e : exn),
    read_msgs fuel a buff = Some (a', buff', e) ->
    (hex_str buff -> hex_str buff')
    /\ (e = BufferExhausted \/ e = BufferParsingError
        \/ (e = ValueError /\ ~ hex_str buff)).
Proof.
  induction fuel as [|fuel IH]; intros a a' buff buff' e; [discriminate|].
  cbn [read_msgs].
  destruct (_parse_msg buff) as [[m buff1]|e1] eqn:E.
  - apply _parse_msg_Ok in E as [-> _]. intros Hr.
    destruct (IH _ _ _ _ _ Hr) as [Hhex He]. split.
    + intros Hb. apply Hhex, hex_str_drop, Hb.
    + destruct He as [-> | [-> | [-> Hno]]]; auto.
      right. right. split; [reflexivity|].
      intros Hb. apply Hno, hex_str_drop, Hb.
  - intros [= <- <- <-]. split; [auto|]. apply _parse_msg_exn, E.
Qed.

Lemma parse_loop_raise (fuel : nat) :
  forall (acc : list ack) (buff : str) (e : exn),
    parse_loop fuel acc buff = Some (Raise e) ->
    e = ValueError /\ ~ hex_str buff.
Proof.
  induction fuel as [|fuel IH]; intros acc buff e; [discriminate|].
  cbn [parse_loop].
  destruct buff as [|c buff0] eqn:Eb; [discriminate|]. rewrite <- Eb in *.
  clear Eb c buff0.
  destruct (_parse_ack buff) as [[a buff1]|e1] eqn:E.
  - apply _parse_ack_Ok in E as [-> _].
    destruct (read_msgs fuel a (drop 18 buff)) as [[[a' buff'] e']|] eqn:Er;
      [|discriminate].
    destruct (read_msgs_exn _ _ _ _ _ _ Er) as [Hhex He].
    assert (Hrec : forall acc', parse_loop fuel acc' buff' = Some (Raise e) ->
                                e = ValueError /\ ~ hex_str buff).
    { intros acc' Hr. destruct (IH _ _ _ Hr) as [-> Hno].
      split; [reflexivity|]. intros Hb. apply Hno, Hhex, hex_str_drop, Hb. }
    destruct He as [-> | [-> | [-> Hno]]]; eauto.
    intros [= <-]. split; [reflexivity|].
    intros Hb. apply Hno, hex_str_drop, Hb.
  - rewrite (_parse_ack_exn _ _ E).
    destruct (partition (lit "0262") buff) as [[b d] r] eqn:Ep.
    case_bool_decide; [discriminate|].
    intros Hr. destruct (IH _ _ _ Hr) as [-> Hno].
    split; [reflexivity|]. intros Hb. apply Hno.
    apply (partition_hex _ _ _ _ _ Ep Hb).
Qed.

(** ** Claims on the parser *)

(** C1 (what the code does; the claim asks for the Ack to be returned).
    On a well-formed Ack header followed by a partial Message frame of
    fewer than 22 characters, [parse] ends normally, without an exception,
    but the sequence it returns is empty: the Ack is not in it. *)
Theorem parse_truncated_message_loses_ack
  (device_id flags cmd1 cmd2 partial : str) :
  length device_id = 6%nat -> length flags = 2%nat ->
  length cmd1 = 2%nat -> length cmd2 = 2%nat ->
  (length partial < 22)%nat ->
  parse (ack_frame device_id flags cmd1 cmd2 ++ partial) = Some (Ok []).
Proof.
  intros. apply parse_ack_then_short; try assumption. lia.
Qed.

Lemma parse_truncated_message_loses_ack_witness :
  parse (lit "0262AABBCC0F1100060250AABBCC112233") = Some (Ok []).
Proof.
  apply (parse_truncated_message_loses_ack
           (lit "AABBCC") (lit "0F") (lit "11") (lit "00")
           (lit "0250AABBCC112233")); simpl; lia.
Defined.

(** C2 (what the code does; the claim asks for both Messages).  On a
    well-formed Ack header followed by two well-formed Message frames,
    [parse] returns one Ack whose response list holds the first Message
    only: after a Message the cursor moves 20 characters, not 22, so the
    second frame is read from the [cmd2] of the first and is rejected. *)
Theorem parse_ack_two_messages_keeps_first
  (device_id flags cmd1 cmd2 : str)
  (from1 to1 flags1 cmd11 cmd12 : str) (status1 : pyval)
  (from2 to2 flags2 cmd21 cmd22 : str) :
  length device_id = 6%nat -> length flags = 2%nat ->
  length cmd1 = 2%nat -> length cmd2 = 2%nat ->
  length from1 = 6%nat -> length to1 = 6%nat -> length flags1 = 2%nat ->
  length cmd11 = 2%nat -> length cmd12 = 2%nat ->
  length from2 = 6%nat -> length to2 = 6%nat -> length flags2 = 2%nat ->
  length cmd21 = 2%nat -> length cmd22 = 2%nat ->
  msg_status_of cmd11 cmd12 = Ok status1 ->
  parse (ack_frame device_id flags cmd1 cmd2
         ++ msg_frame from1 to1 flags1 cmd11 cmd12
         ++ msg_frame from2 to2 flags2 cmd21 cmd22)
  = Some (Ok [Ack device_id flags (ack_command_of cmd1 cmd2)
                [Msg from1 to1 flags1 status1 (msg_type_of cmd11)]]).
Proof.
  intros Hid Hfl Hc1 Hc2 Hf1 Ht1 Hfl1 Hc11 Hc12 Hf2 Ht2 Hfl2 Hc21 Hc22 Hst.
  pose proof (ack_frame_length _ _ _ _ Hid Hfl Hc1 Hc2) as La.
  pose proof (msg_frame_length _ _ _ _ _ Hf1 Ht1 Hfl1 Hc11 Hc12) as L1.
  pose proof (msg_frame_length _ _ _ _ _ Hf2 Ht2 Hfl2 Hc21 Hc22) as L2.
  unfold parse. rewrite !length_app, La, L1, L2.
  remember (S (18 + (22 + 22))) as fuel eqn:Ef.
  assert (Hfuel : (26 < fuel)%nat) by (subst fuel; lia). clear Ef.
  destruct fuel as [|fuel]; [lia|].
  cbn [parse_loop].
  destruct (ack_frame device_id flags cmd1 cmd2 ++ _) as [|c buff0] eqn:Eb.
  { apply (f_equal length) in Eb. rewrite !length_app, La in Eb. discriminate Eb. }
  rewrite <- Eb. clear Eb.
  rewrite _parse_ack_frame by assumption.
  destruct fuel as [|[|fuel']] eqn:Efuel; [lia|lia|].
  cbn [read_msgs].
  rewrite (_parse_msg_frame _ _ _ _ _ _ status1) by (assumption || lia).
  rewrite _parse_msg_misaligned by assumption.
  cbn [app].
  apply parse_loop_misaligned; (assumption || lia).
Qed.

Lemma parse_ack_two_messages_keeps_first_witness :
  parse (lit "0262AABBCC0F1100060250AABBCC1122330111FF0250AABBCC112233011300")
  = Some (Ok [Ack (lit "AABBCC") (lit "0F") (lit "on")
                [Msg (lit "AABBCC") (lit "112233") (lit "01")
                     (PInt 255) (lit "on")]]).
Proof.
  apply (parse_ack_two_messages_keeps_first
           (lit "AABBCC") (lit "0F") (lit "11") (lit "00")
           (lit "AABBCC") (lit "112233") (lit "01") (lit "11") (lit "FF")
           (PInt 255)
           (lit "AABBCC") (lit "112233") (lit "01") (lit "13") (lit "00"));
    reflexivity.
Defined.

(** C3 (what the code does; the claim asks for one Ack).  On a buffer
    that is exactly one well-formed Ack header, as [0262AABBCC0F110006],
    [parse] returns the empty sequence: reading a Message from the empty
    rest raises [BufferExhausted], and on that path the Ack is not
    appended to the output. *)
Theorem parse_lone_ack_is_lost (device_id flags cmd1 cmd2 : str) :
  length device_id = 6%nat -> length flags = 2%nat ->
  length cmd1 = 2%nat -> length cmd2 = 2%nat ->
  parse (ack_frame device_id flags cmd1 cmd2) = Some (Ok []).
Proof.
  intros.
  rewrite <- (app_nil_r (ack_frame device_id flags cmd1 cmd2)).
  apply parse_ack_then_short; try assumption. simpl. lia.
Qed.

Lemma parse_lone_ack_is_lost_witness :
  parse (lit "0262AABBCC0F110006") = Some (Ok []).
Proof.
  apply (parse_lone_ack_is_lost (lit "AABBCC") (lit "0F") (lit "11") (lit "00"));
    reflexivity.
Defined.

(** C9. A malformed Ack header or Message header never makes [parse]
    raise to its caller.  On every buffer, [BufferParsingError] and
    [BufferExhausted] stay inside [parse]: the only exception that can
    leave it is the [ValueError] of [int], and only on a buffer that holds
    a character that is no hexadecimal digit.  On every buffer of
    hexadecimal characters [parse] returns a list of Acks, empty or
    partial when the buffer cannot be read. *)
Theorem parse_absorbs_frame_errors (buff : str) :
  (forall e, parse buff = Some (Raise e) -> e = ValueError /\ ~ hex_str buff)
  /\ (hex_str buff -> exists acks, parse buff = Some (Ok acks)).
Proof.
  split.
  - intros e He. apply (parse_loop_raise _ _ _ _ He).
  - intros Hhex.
    destruct (parse_loop_total (S (length buff)) [] buff) as [r Hr]; [lia|].
    unfold parse. destruct r as [acks|e]; [eauto|].
    destruct (parse_loop_raise _ _ _ _ Hr) as [_ Hno]. contradiction.
Qed.

(** ** Claims on the command encoder *)

(** C6 (what the code does; the claim asks for [00] at level 0).
    [device_on] encodes level 255 as [FF], but level 0 as the single
    character [0]: [hex] does not pad, so the command string of level 0 is
    one character short. *)
Theorem device_on_level_encoding :
  device_on_cmd2 255 = lit "FF"
  /\ device_on_cmd2 0 = lit "0"
  /\ device_on (lit "AABBCC") 0 = lit "/3?0262aabbcc0f110=I=3".
Proof. vm_compute. repeat split; reflexivity. Qed.

Lemma lower_length (s : str) : length (lower s) = length s.
Proof. apply length_map. Qed.

Lemma hub_response_frame (device_id cmd1 cmd2 flags : str) :
  hub_response (command_msg device_id cmd1 cmd2 flags)
  = ack_frame (lower device_id) (lower flags) (lower cmd1) (lower cmd2) ++ [].
Proof.
  unfold hub_response, command_msg, ack_frame, lower.
  rewrite !map_app, app_nil_r, <- !app_assoc. reflexivity.
Qed.

(** C7 (as amended).  For every valid encoded command, reading the Ack
    header of the hub response built from it (the command string and the
    ack byte 06) gives an Ack whose [device] and [flags] are the encoded
    deviceId and flags, and whose [command] is the tag of the encoded
    cmd1: [status_request], [on] or [off] for 19, 11 or 13, and otherwise
    [unknown[cmd1::cmd2]], which holds the encoded cmd1 and cmd2.  Nothing
    of the buffer is left. *)
Theorem ack_of_encoded_command (device_id cmd1 cmd2 flags : str) :
  valid_command device_id cmd1 cmd2 flags ->
  _parse_ack (hub_response (command_msg device_id cmd1 cmd2 flags))
  = Ok (Ack (lower device_id) (lower flags)
            (ack_command_of (lower cmd1) (lower cmd2)) [], []).
Proof.
  intros ((Hid & _) & (Hfl & _) & (Hc1 & _) & (Hc2 & _)).
  rewrite hub_response_frame.
  apply _parse_ack_frame; rewrite lower_length; assumption.
Qed.

Lemma hex_str_lit_check (s : str) :
  forallb is_hex s = true -> hex_str s.
Proof.
  intros H. apply Forall_forall. intros c Hc.
  rewrite forallb_forall in H. apply H. apply list_elem_of_In, Hc.
Qed.

Lemma ack_of_encoded_command_witness :
  _parse_ack (lit "0262aabbcc0f11ff06")
  = Ok (Ack (lit "aabbcc") (lit "0f") (lit "on") [], []).
Proof.
  apply (ack_of_encoded_command (lit "AABBCC") (lit "11") (lit "FF") (lit "0F")).
  repeat split; try reflexivity; apply hex_str_lit_check; reflexivity.
Defined.

(** C7 (the claim as stated fails).  The Ack read back from a hub
    response does not give the encoded cmd2: the responses to [on] at
    level FF and at level 80 are read as the same Ack, so no function of
    the Ack returns the cmd2 that was encoded. *)
Lemma ack_does_not_yield_cmd2 :
  ~ exists cmd2_of : ack -> str,
      forall (device_id cmd1 cmd2 flags : str) (a : ack) (rest : str),
        valid_command device_id cmd1 cmd2 flags ->
        _parse_ack (hub_response (command_msg device_id cmd1 cmd2 flags))
        = Ok (a, rest) ->
        cmd2_of a = lower cmd2.
Proof.
  intros [cmd2_of H].
  assert (Hv : forall c, forallb is_hex c = true -> length c = 2%nat ->
                         valid_command (lit "AABBCC") (lit "11") c (lit "0F")).
  { intros c Hc Hl. repeat split; try assumption; try reflexivity;
      apply hex_str_lit_check; (assumption || reflexivity). }
  pose proof (H (lit "AABBCC") (lit "11") (lit "FF") (lit "0F")
                (Ack (lit "aabbcc") (lit "0f") (lit "on") []) []
                (Hv (lit "FF") eq_refl eq_refl) eq_refl) as H1.
  pose proof (H (lit "AABBCC") (lit "11") (lit "80") (lit "0F")
                (Ack (lit "aabbcc") (lit "0f") (lit "on") []) []
                (Hv (lit "80") eq_refl eq_refl) eq_refl) as H2.
  rewrite H1 in H2. discriminate H2.
Qed.

(** ** The subscribe loop *)

Section SubscribeFacts.

Variable ttl : Z.
Variable fp : ack -> Z.

Lemma observe_all_cons (st : sub_state) (o : Z * ack) (obs : list (Z * ack)) :
  observe_all ttl fp st (o :: obs)
  = observe_all ttl fp (observe ttl fp st o) obs.
Proof. reflexivity. Qed.

Lemma observe_calls (st : sub_state) (now : Z) (m : ack) :
  calls (observe ttl fp st (now, m))
  = calls st
    ++ (if unseen_or_stale ttl (recent_msgs st !! fp m) now then [m] else []).
Proof.
  unfold observe, newsworthy, unseen_or_stale. cbn [calls].
  destruct (recent_msgs st !! fp m) as [seen|].
  - destruct (bool_decide _); [reflexivity | symmetry; apply app_nil_r].
  - reflexivity.
Qed.

Lemma observe_recent (st : sub_state) (now : Z) (m : ack) (h : Z) :
  recent_msgs (observe ttl fp st (now, m)) !! h
  = if decide (fp m = h) then Some now else recent_msgs st !! h.
Proof.
  unfold observe. cbn [recent_msgs]. apply lookup_insert.
Qed.

(** What a run of the loop body does to one hash depends on the
    observations of that hash only. *)
Lemma observe_all_hash (h : Z) (obs : list (Z * ack)) :
  forall st : sub_state,
    recent_msgs (observe_all ttl fp st obs) !! h
    = last_time (recent_msgs st !! h) (obs_with_hash fp h obs)
    /\ with_hash fp h (calls (observe_all ttl fp st obs))
       = with_hash fp h (calls st)
         ++ delivered ttl (recent_msgs st !! h) (obs_with_hash fp h obs).
Proof.
  induction obs as [|[now m] obs IH]; intros st.
  - split; [reflexivity|]. symmetry. apply app_nil_r.
  - rewrite observe_all_cons.
    destruct (IH (observe ttl fp st (now, m))) as [IHr IHc].
    rewrite IHr, IHc, observe_recent, observe_calls.
    unfold obs_with_hash, with_hash.
    rewrite filter_app.
    destruct (decide (fp m = h)) as [Hm | Hm].
    + rewrite (filter_cons_True _ (now, m)) by exact Hm.
      cbn [last_time delivered]. rewrite Hm. split; [reflexivity|].
      rewrite <- app_assoc. f_equal. f_equal.
      destruct (unseen_or_stale _ _ _); [|reflexivity].
      rewrite filter_cons_True by exact Hm. reflexivity.
    + rewrite (filter_cons_False _ (now, m)) by exact Hm.
      split; [reflexivity|]. f_equal.
      destruct (unseen_or_stale _ _ _); [|apply app_nil_r].
      rewrite filter_cons_False by exact Hm. apply app_nil_r.
Qed.



(** Observations within the time to live of the one before are not
    delivered. *)
Lemma delivered_within_gaps (obs : list (Z * ack)) :
  forall now : Z,
    gaps_within ttl (now :: map fst obs) ->
    delivered ttl (Some now) obs = [].
Proof.
  induction obs as [|[now' m] obs IH]; intros now Hg; [reflexivity|].
  cbn [map fst gaps_within] in Hg. destruct Hg as [Hgap Hg].
  cbn [delivered unseen_or_stale].
  rewrite bool_decide_eq_false_2 by lia.
  apply IH, Hg.
Qed.

Lemma observe_all_news (obs : list (Z * ack)) :
  forall st : sub_state,
    exists news,
      calls (observe_all ttl fp st obs) = calls st ++ news
      /\ sublist news (map snd obs).
Proof.
  induction obs as [|[now m] obs IH]; intros st.
  - exists []. split; [symmetry; apply app_nil_r | constructor].
  - rewrite observe_all_cons.
    destruct (IH (observe ttl fp st (now, m))) as (news & Hc & Hs).
    rewrite Hc, observe_calls, <- app_assoc.
    eexists. split; [reflexivity|].
    cbn [map snd].
    destruct (unseen_or_stale _ _ _); cbn [app];
      [apply sublist_skip | apply sublist_cons]; exact Hs.
Qed.

Lemma stamped_records (clock : nat -> Z) (msgs : list ack) :
  map snd (imap (fun i m => (clock i, m)) msgs) = msgs.
Proof.
  revert clock. induction msgs as [|m msgs IH]; intros clock; [reflexivity|].
  cbn [imap map snd]. f_equal. apply (IH (clock ∘ S)).
Qed.

Lemma due_app_l (recent : gmap Z Z) (obs obs' : list (Z * ack)) (i : nat) :
  (i < length obs)%nat ->
  due ttl fp recent (obs ++ obs') i = due ttl fp recent obs i.
Proof.
  intros Hi. unfold due.
  rewrite lookup_app_l by exact Hi. rewrite take_app_le by lia. reflexivity.
Qed.

Lemma selected_snoc (recent : gmap Z Z) (obs : list (Z * ack)) (now : Z) (m : ack) :
  selected ttl fp recent (obs ++ [(now, m)])
  = selected ttl fp recent obs
    ++ (if unseen_or_stale ttl (last_seen fp recent obs (fp m)) now
        then [m] else []).
Proof.
  unfold selected. rewrite imap_app, concat_app. f_equal.
  - f_equal. apply imap_ext. intros i o Hi.
    rewrite due_app_l by (apply lookup_lt_Some in Hi; exact Hi). reflexivity.
  - cbn [imap concat]. rewrite app_nil_r, Nat.add_0_r. unfold due.
    rewrite list_lookup_middle by reflexivity.
    rewrite take_app_length. reflexivity.
Qed.

(** The calls of a run of loop bodies are the records that are due. *)
Lemma observe_all_selected (obs : list (Z * ack)) :
  forall st : sub_state,
    calls (observe_all ttl fp st obs)
    = calls st ++ selected ttl fp (recent_msgs st) obs.
Proof.
  induction obs as [|[now m] obs IH] using rev_ind; intros st.
  - symmetry. apply app_nil_r.
  - unfold observe_all. rewrite fold_left_app. cbn [fold_left].
    fold (observe_all ttl fp st obs).
    rewrite observe_calls, IH, selected_snoc, <- app_assoc.
    destruct (observe_all_hash (fp m) obs st) as [-> _]. reflexivity.
Qed.

(** C4 (as amended).  In every turn of the subscribe loop in which the
    poll succeeds, the values handed to the callback are Ack records of
    the parsed buffer, each with its own list of responses, in the order
    of the buffer: a subsequence of what [parse] returned for this poll,
    namely the Acks whose fingerprint, when their turn comes, is unseen or
    was last seen more than [status_ttl] before.  The response lists are
    not flattened. *)
Theorem subscribe_iter_delivers_acks
  (st : sub_state) (text : str) (clock : nat -> Z) (acks : list ack) :
  poll text = Some (Ok acks) ->
  exists st' news,
    subscribe_iter ttl fp st (text, clock) = Some (Ok st')
    /\ calls st' = calls st ++ news
    /\ sublist news acks
    /\ news = selected ttl fp (recent_msgs st)
                (imap (fun i m => (clock i, m)) acks).
Proof.
  intros Hpoll. unfold subscribe_iter. rewrite Hpoll.
  unfold for_msgs.
  destruct (observe_all_news (imap (fun i m => (clock i, m)) acks) st)
    as (news & Hc & Hs).
  rewrite stamped_records in Hs.
  exists (observe_all ttl fp st (imap (fun i m => (clock i, m)) acks)), news.
  repeat split; try assumption.
  rewrite observe_all_selected in Hc. apply app_inv_head in Hc.
  symmetry. exact Hc.
Qed.


(** C10.  The time a fingerprint was last seen is set to the current
    time at every observation, also at those that do not call the
    callback.  So when a record with one fingerprint, not seen before, is
    observed again and again, each time at most [status_ttl] after the
    time before, the callback is called for the first observation only,
    however long the whole run lasts. *)
Theorem repeats_within_ttl_delivered_once
  (st : sub_state) (h : Z) (obs : list (Z * ack)) :
  recent_msgs st !! h = None ->
  gaps_within ttl (map fst (obs_with_hash fp h obs)) ->
  recent_msgs (observe_all ttl fp st obs) !! h
  = last_time None (obs_with_hash fp h obs)
  /\ with_hash fp h (calls (observe_all ttl fp st obs))
     = with_hash fp h (calls st) ++ take 1 (map snd (obs_with_hash fp h obs)).
Proof.
  intros Hnew Hgaps.
  destruct (observe_all_hash h obs st) as [-> ->]. rewrite Hnew.
  split; [reflexivity|]. f_equal.
  destruct (obs_with_hash fp h obs) as [|[now m] rest]; [reflexivity|].
  cbn [delivered unseen_or_stale map snd take app].
  rewrite (delivered_within_gaps rest now) by exact Hgaps. reflexivity.
Qed.

End SubscribeFacts.

(** ** The subscribe loop on sample values *)

Lemma poll_sample_text : poll sample_text = Some (Ok [sample_ack]).
Proof. vm_compute. reflexivity. Qed.

Lemma subscribe_iter_delivers_acks_witness :
  exists st' news,
    subscribe_iter 60 sample_hash
      (observe_all 60 sample_hash sub_init [(0%Z, sample_ack); (5%Z, other_ack)])
      (sample_text, fun _ => 100%Z)
    = Some (Ok st')
    /\ calls st'
       = calls (observe_all 60 sample_hash sub_init
                  [(0%Z, sample_ack); (5%Z, other_ack)]) ++ news
    /\ sublist news [sample_ack]
    /\ news
       = selected 60 sample_hash
           (recent_msgs (observe_all 60 sample_hash sub_init
                           [(0%Z, sample_ack); (5%Z, other_ack)]))
           (imap (fun i m => ((fun _ => 100%Z) i, m)) [sample_ack]).
Proof.
  apply (subscribe_iter_delivers_acks 60 sample_hash
           (observe_all 60 sample_hash sub_init
              [(0%Z, sample_ack); (5%Z, other_ack)])
           sample_text (fun _ => 100%Z) [sample_ack]).
  vm_compute. reflexivity.
Defined.

(** C4 (the claim as stated fails).  On the first poll of a buffer that
    holds one Ack header followed by 23 characters that are no Message,
    no Message is decoded, and yet the callback is called once: with the
    Ack record, whose response list is empty. *)
Lemma subscribe_delivers_ack_not_messages :
  exists acks st',
    poll sample_text = Some (Ok acks)
    /\ subscribe_iter 60 sample_hash sub_init (sample_text, fun _ => 0%Z)
       = Some (Ok st')
    /\ flatten_responses acks = []
    /\ calls st' = [sample_ack].
Proof.
  exists [sample_ack]. eexists.
  split; [exact poll_sample_text|].
  split.
  - unfold subscribe_iter. rewrite poll_sample_text. reflexivity.
  - split; reflexivity.
Qed.


Lemma repeats_within_ttl_delivered_once_witness :
  recent_msgs
    (observe_all 60 sample_hash sub_init
       [(0, sample_ack); (50, sample_ack); (20, other_ack);
        (100, sample_ack); (150, sample_ack)]%Z) !! 2%Z
  = Some 150%Z
  /\ with_hash sample_hash 2
       (calls (observe_all 60 sample_hash sub_init
                 [(0, sample_ack); (50, sample_ack); (20, other_ack);
                  (100, sample_ack); (150, sample_ack)]%Z))
     = [sample_ack].
Proof.
  apply (repeats_within_ttl_delivered_once 60 sample_hash sub_init 2
           [(0, sample_ack); (50, sample_ack); (20, other_ack);
            (100, sample_ack); (150, sample_ack)]%Z).
  - reflexivity.
  - vm_compute. repeat split; discriminate.
Defined.

(** ** More on [partition] *)

Lemma startswith_nil (sep : str) : sep <> [] -> startswith sep [] = false.
Proof.
  intros Hsep. unfold startswith. apply bool_decide_eq_false_2.
  rewrite take_nil. congruence.
Qed.

Lemma no_match_before_tail (sep : str) (n : nat) (c : ascii) (s : str) :
  no_match_before sep (S n) (c :: s) -> no_match_before sep n s.
Proof. intros H i Hi. apply (H (S i)). lia. Qed.

Lemma partition_skip_prefix (sep g s : str) :
  no_match_before sep (length g) (g ++ s) ->
  partition sep (g ++ s)
  = let '(b, d, a) := partition sep s in (g ++ b, d, a).
Proof.
  induction g as [|c g IH]; intros Hno.
  - cbn [app]. destruct (partition sep s) as [[b d] a]. reflexivity.
  - pose proof (Hno 0%nat ltac:(simpl; lia)) as H0. cbn [drop app] in H0.
    cbn [app partition]. rewrite H0.
    rewrite IH by (apply (no_match_before_tail _ _ c), Hno).
    destruct (partition sep s) as [[b d] a]. reflexivity.
Qed.

Lemma partition_found_here (sep s : str) :
  startswith sep s = true ->
  partition sep s = ([], sep, drop (length sep) s).
Proof. intros H. destruct s; cbn [partition]; rewrite H; reflexivity. Qed.

Lemma partition_not_found (sep s : str) :
  sep <> [] -> no_match_before sep (length s) s ->
  partition sep s = (s, [], []).
Proof.
  intros Hsep. induction s as [|c s IH]; intros Hno.
  - cbn [partition]. rewrite startswith_nil by exact Hsep. reflexivity.
  - pose proof (Hno 0%nat ltac:(simpl; lia)) as H0. cbn [drop] in H0.
    cbn [partition]. rewrite H0.
    rewrite IH by (apply (no_match_before_tail _ _ c), Hno). reflexivity.
Qed.

Lemma partition_suffix (sep s b d a : str) :
  partition sep s = (b, d, a) -> exists k, d ++ a = drop k s.
Proof.
  revert b d a. induction s as [|c s IH]; intros b d a.
  - simpl. unfold startswith. case_bool_decide as Hp.
    + intros [= <- <- <-]. rewrite take_nil in Hp. rewrite <- Hp. exists 0%nat. reflexivity.
    + intros [= <- <- <-]. exists 0%nat. reflexivity.
  - cbn [partition]. unfold startswith. case_bool_decide as Hp.
    + intros [= <- <- <-]. exists 0%nat.
      rewrite <- Hp at 1. rewrite take_drop. reflexivity.
    + destruct (partition sep s) as [[b' d'] a'] eqn:E.
      intros [= <- <- <-]. destruct (IH _ _ _ eq_refl) as [k Hk].
      exists (S k). exact Hk.
Qed.

(** ** More on the parser *)

Lemma parse_fuel (fuel : nat) (buff : str) :
  (length buff < fuel)%nat -> parse_loop fuel [] buff = parse buff.
Proof.
  intros Hf. unfold parse.
  destruct (parse_loop_total (S (length buff)) [] buff) as [r Hr]; [lia|].
  rewrite Hr. apply (parse_loop_more_fuel _ _ _ _ _ Hr). lia.
Qed.

Lemma prepend_acks_app (acc acc' : list ack) (r : option (result (list ack))) :
  prepend_acks (acc ++ acc') r = prepend_acks acc (prepend_acks acc' r).
Proof.
  destruct r as [[acks|e]|]; cbn [prepend_acks]; [|reflexivity..].
  rewrite app_assoc. reflexivity.
Qed.

(** The accumulator of the outer loop is only ever extended. *)
Lemma parse_loop_acc (fuel : nat) :
  forall (acc : list ack) (buff : str),
    parse_loop fuel acc buff = prepend_acks acc (parse_loop fuel [] buff).
Proof.
  induction fuel as [|fuel IH]; intros acc buff; [reflexivity|].
  cbn [parse_loop].
  destruct buff as [|c buff0] eqn:Eb.
  { cbn [prepend_acks]. rewrite app_nil_r. reflexivity. }
  rewrite <- Eb. clear Eb c buff0.
  destruct (_parse_ack buff) as [[a buff1]|e].
  - destruct (read_msgs fuel a buff1) as [[[a' buff'] e]|]; [|reflexivity].
    destruct e; try reflexivity.
    + rewrite (IH (acc ++ [a'])), (IH ([] ++ [a'])).
      cbn [app]. apply prepend_acks_app.
    + apply IH.
  - destruct e; try reflexivity.
    destruct (partition (lit "0262") buff) as [[b d] r].
    case_bool_decide; [|apply IH].
    cbn [prepend_acks]. rewrite app_nil_r. reflexivity.
Qed.

Lemma _parse_ack_no_prefix (buff : str) :
  startswith (lit "0262") buff = false ->
  _parse_ack buff = Raise BufferParsingError.
Proof.
  intros H. unfold _parse_ack.
  change (slice 0 4 buff) with (take 4 buff).
  unfold startswith in H. change (length (lit "0262")) with 4%nat in H.
  rewrite H. reflexivity.
Qed.

Lemma _parse_msg_no_flag (buff : str) :
  (23 <= length buff)%nat ->
  startswith (lit "0250") buff = false ->
  _parse_msg buff = Raise BufferParsingError.
Proof.
  intros Hlen H. unfold _parse_msg.
  destruct (lookup_lt_is_Some_2 buff 22) as [c ->]; [lia|].
  change (slice 0 4 buff) with (take 4 buff).
  unfold startswith in H. change (length (lit "0250")) with 4%nat in H.
  rewrite H. reflexivity.
Qed.

Lemma _parse_msg_flag_error (buff : str) :
  _parse_msg buff = Raise BufferParsingError -> (23 <= length buff)%nat.
Proof.
  unfold _parse_msg.
  destruct (buff !! 22%nat) as [c|] eqn:E; [|discriminate].
  apply lookup_lt_Some in E. intros _. lia.
Qed.

(** X1. A buffer in which the prefix 0262 occurs nowhere is read as the
    empty list. *)
Theorem parse_without_prefix (buff : str) :
  no_match_before (lit "0262") (length buff) buff ->
  parse buff = Some (Ok []).
Proof.
  intros Hno. unfold parse. cbn [parse_loop].
  destruct buff as [|c buff0] eqn:Eb; [reflexivity|]. rewrite <- Eb in *.
  assert (Hlen : (0 < length buff)%nat) by (rewrite Eb; simpl; lia).
  clear Eb c buff0.
  pose proof (Hno 0%nat Hlen) as H0. rewrite drop_0 in H0.
  rewrite (_parse_ack_no_prefix _ H0).
  rewrite partition_not_found by (exact Hno || discriminate).
  cbn [app]. rewrite bool_decide_eq_false_2.
  - destruct (length buff); [lia | reflexivity].
  - intros ->. simpl in Hlen. lia.
Qed.

Lemma parse_without_prefix_witness :
  parse (lit "0250AABBCC1122330111FF06") = Some (Ok []).
Proof.
  apply (parse_without_prefix (lit "0250AABBCC1122330111FF06")).
  intros i Hi. simpl in Hi.
  do 24 (destruct i as [|i]; [reflexivity|]). lia.
Defined.

(** X2. What comes before the first occurrence of the prefix 0262 is
    skipped: the buffer is read as if it started at that occurrence. *)
Theorem parse_skips_leading_garbage (garbage rest : str) :
  no_match_before (lit "0262") (length garbage) (garbage ++ rest) ->
  startswith (lit "0262") rest = true ->
  parse (garbage ++ rest) = parse rest.
Proof.
  intros Hno Hrest.
  destruct garbage as [|c g] eqn:Eg; [reflexivity|]. rewrite <- Eg in *.
  assert (Hlen : (0 < length garbage)%nat) by (rewrite Eg; simpl; lia).
  clear Eg.
  unfold parse at 1. cbn [parse_loop].
  destruct (garbage ++ rest) as [|c' buff0] eqn:Eb.
  { apply (f_equal length) in Eb. rewrite length_app in Eb. simpl in Eb. lia. }
  rewrite <- Eb in *. clear Eb c' buff0.
  pose proof (Hno 0%nat Hlen) as H0. rewrite drop_0 in H0.
  rewrite (_parse_ack_no_prefix _ H0).
  rewrite partition_skip_prefix by exact Hno.
  rewrite (partition_found_here _ _ Hrest).
  assert (Hback : lit "0262" ++ drop (length (lit "0262")) rest = rest).
  { unfold startswith in Hrest. apply bool_decide_eq_true_1 in Hrest.
    rewrite <- Hrest at 1. apply take_drop. }
  rewrite Hback. rewrite bool_decide_eq_false_2.
  - apply parse_fuel. rewrite length_app. lia.
  - intros Heq. apply (f_equal length) in Heq. rewrite length_app in Heq. lia.
Qed.

Lemma parse_skips_leading_garbage_witness :
  parse (lit "FF00" ++ lit "0262AABBCC0F1100060262AABBCC0F13000600000")
  = parse (lit "0262AABBCC0F1100060262AABBCC0F13000600000").
Proof.
  apply (parse_skips_leading_garbage (lit "FF00")
           (lit "0262AABBCC0F1100060262AABBCC0F13000600000")).
  - intros i Hi. simpl in Hi.
    do 4 (destruct i as [|i]; [reflexivity|]). lia.
  - reflexivity.
Defined.

Lemma parse_loop_ack_then_other
  (device_id flags cmd1 cmd2 rest : str) (fuel : nat) :
  length device_id = 6%nat -> length flags = 2%nat ->
  length cmd1 = 2%nat -> length cmd2 = 2%nat ->
  (23 <= length rest)%nat ->
  startswith (lit "0250") rest = false ->
  (0 < fuel)%nat ->
  parse_loop (S fuel) [] (ack_frame device_id flags cmd1 cmd2 ++ rest)
  = prepend_acks [Ack device_id flags (ack_command_of cmd1 cmd2) []]
                 (parse_loop fuel [] rest).
Proof.
  intros Hid Hfl Hc1 Hc2 Hlen Hflag Hfuel.
  pose proof (ack_frame_length _ _ _ _ Hid Hfl Hc1 Hc2) as La.
  cbn [parse_loop].
  destruct (ack_frame device_id flags cmd1 cmd2 ++ rest) as [|c buff0] eqn:Eb.
  { apply (f_equal length) in Eb. rewrite length_app, La in Eb. discriminate Eb. }
  rewrite <- Eb. clear Eb c buff0.
  rewrite _parse_ack_frame by assumption.
  destruct fuel as [|fuel']; [lia|].
  cbn [read_msgs]. rewrite (_parse_msg_no_flag _ Hlen Hflag).
  apply parse_loop_acc.
Qed.

(** X3. An Ack header followed by at least 23 characters that do not
    start with the message flag 0250 is returned with an empty response
    list, and those characters are then read as the rest of the buffer. *)
Theorem parse_ack_then_other (device_id flags cmd1 cmd2 rest : str) :
  length device_id = 6%nat -> length flags = 2%nat ->
  length cmd1 = 2%nat -> length cmd2 = 2%nat ->
  (23 <= length rest)%nat ->
  startswith (lit "0250") rest = false ->
  parse (ack_frame device_id flags cmd1 cmd2 ++ rest)
  = prepend_acks [Ack device_id flags (ack_command_of cmd1 cmd2) []]
                 (parse rest).
Proof.
  intros Hid Hfl Hc1 Hc2 Hlen Hflag.
  pose proof (ack_frame_length _ _ _ _ Hid Hfl Hc1 Hc2) as La.
  assert (Hl : length (ack_frame device_id flags cmd1 cmd2 ++ rest)
               = (18 + length rest)%nat) by (rewrite length_app, La; reflexivity).
  unfold parse at 1.
  rewrite parse_loop_ack_then_other by (assumption || lia).
  rewrite parse_fuel by lia. reflexivity.
Qed.

Lemma parse_ack_then_other_witness :
  parse (ack_frame (lit "AABBCC") (lit "0F") (lit "11") (lit "00")
         ++ lit "0262AABBCC0F13000600000")
  = prepend_acks [Ack (lit "AABBCC") (lit "0F") (lit "on") []]
                 (parse (lit "0262AABBCC0F13000600000")).
Proof.
  apply (parse_ack_then_other (lit "AABBCC") (lit "0F") (lit "11") (lit "00")
           (lit "0262AABBCC0F13000600000")); reflexivity.
Defined.

(** X4. An Ack header followed by one complete Message frame and nothing
    else is read as the empty list: [_parse_msg] asks for a 23rd
    character. *)
Theorem parse_ack_one_message_is_lost
  (device_id flags cmd1 cmd2 from to flags' cmd1' cmd2' : str) :
  length device_id = 6%nat -> length flags = 2%nat ->
  length cmd1 = 2%nat -> length cmd2 = 2%nat ->
  length from = 6%nat -> length to = 6%nat -> length flags' = 2%nat ->
  length cmd1' = 2%nat -> length cmd2' = 2%nat ->
  parse (ack_frame device_id flags cmd1 cmd2
         ++ msg_frame from to flags' cmd1' cmd2') = Some (Ok []).
Proof.
  intros Hid Hfl Hc1 Hc2 Hf Ht Hfl' Hc1' Hc2'.
  apply parse_ack_then_short; try assumption.
  rewrite msg_frame_length by assumption. lia.
Qed.

Lemma parse_ack_one_message_is_lost_witness :
  parse (lit "0262AABBCC0F1100060250AABBCC1122330111FF") = Some (Ok []).
Proof.
  apply (parse_ack_one_message_is_lost
           (lit "AABBCC") (lit "0F") (lit "11") (lit "00")
           (lit "AABBCC") (lit "112233") (lit "01") (lit "11") (lit "FF"));
    reflexivity.
Defined.

(** ** Invariants of the parser's output *)

Section ParseInvariant.

Variable Pb : str -> Prop.
Variable Pa : ack -> Prop.
Variable Pm : msg -> Prop.

Hypothesis Pb_drop : forall (n : nat) (s : str), Pb s -> Pb (drop n s).
Hypothesis Pa_ack :
  forall (buff rest : str) (a : ack),
    Pb buff -> _parse_ack buff = Ok (a, rest) -> Pa a.
Hypothesis Pm_msg :
  forall (buff rest : str) (m : msg),
    Pb buff -> _parse_msg buff = Ok (m, rest) -> Pm m.
Hypothesis Pa_append :
  forall (a : ack) (m : msg), Pa a -> Pm m -> Pa (append_response a m).

Lemma read_msgs_invariant (fuel : nat) :
  forall (a a' : ack) (buff buff' : str) (e : exn),
    Pb buff -> Pa a ->
    read_msgs fuel a buff = Some (a', buff', e) ->
    Pa a' /\ Pb buff'.
Proof.
  induction fuel as [|fuel IH]; intros a a' buff buff' e Hb Ha; [discriminate|].
  cbn [read_msgs].
  destruct (_parse_msg buff) as [[m buff1]|e1] eqn:E.
  - pose proof (Pm_msg _ _ _ Hb E) as Hm.
    apply _parse_msg_Ok in E as [-> _].
    apply IH; [apply Pb_drop, Hb | apply Pa_append; assumption].
  - intros [= <- <- <-]. split; assumption.
Qed.

Lemma parse_loop_invariant (fuel : nat) :
  forall (acc acks : list ack) (buff : str),
    Pb buff -> Forall Pa acc ->
    parse_loop fuel acc buff = Some (Ok acks) ->
    Forall Pa acks.
Proof.
  induction fuel as [|fuel IH]; intros acc acks buff Hb Hacc; [discriminate|].
  cbn [parse_loop].
  destruct buff as [|c buff0] eqn:Eb; [intros [= <-]; exact Hacc|].
  rewrite <- Eb in *. clear Eb c buff0.
  destruct (_parse_ack buff) as [[a buff1]|e1] eqn:E.
  - pose proof (Pa_ack _ _ _ Hb E) as Ha.
    apply _parse_ack_Ok in E as [-> _].
    destruct (read_msgs fuel a (drop 18 buff)) as [[[a' buff'] e']|] eqn:Er;
      [|discriminate].
    destruct (read_msgs_invariant _ _ _ _ _ _ (Pb_drop 18 _ Hb) Ha Er)
      as [Ha' Hb'].
    destruct e'; try discriminate.
    + apply IH; [exact Hb'|]. apply Forall_app. split; [exact Hacc|].
      constructor; [exact Ha' | constructor].
    + apply IH; assumption.
  - destruct e1; try discriminate.
    destruct (partition (lit "0262") buff) as [[b d] r] eqn:Ep.
    case_bool_decide; [intros [= <-]; exact Hacc|].
    apply IH; [|exact Hacc].
    destruct (partition_suffix _ _ _ _ _ Ep) as [k ->]. apply Pb_drop, Hb.
Qed.

End ParseInvariant.

Lemma slice_length (a b : nat) (s : str) :
  (b <= length s)%nat -> length (slice a b s) = (b - a)%nat.
Proof. intros H. unfold slice. rewrite length_take, length_drop. lia. Qed.

Lemma ack_command_of_cases (cmd1 cmd2 : str) :
  ack_command_of cmd1 cmd2 ∈ ack_tags
  \/ ack_command_of cmd1 cmd2 = unknown_tag cmd1 cmd2.
Proof.
  unfold ack_command_of, ack_tags.
  repeat case_bool_decide; [left; set_solver.. | right; reflexivity].
Qed.

Lemma _parse_ack_ok (buff rest : str) (a : ack) :
  _parse_ack buff = Ok (a, rest) -> ack_ok a.
Proof.
  intros E. pose proof (_parse_ack_Ok _ _ _ E) as [_ Hlen].
  unfold _parse_ack in E. destruct (_ && _); [|discriminate].
  injection E as <- _. unfold ack_ok. cbn [ack_device ack_flags ack_command ack_response].
  rewrite !slice_length by lia. repeat split; [| constructor].
  destruct (ack_command_of_cases (slice 12 14 buff) (slice 14 16 buff))
    as [H | H]; [left; exact H | right].
  exists (slice 12 14 buff), (slice 14 16 buff).
  rewrite !slice_length by lia. auto.
Qed.

Lemma _parse_msg_ok (buff rest : str) (m : msg) :
  _parse_msg buff = Ok (m, rest) -> msg_ok m.
Proof.
  intros E. pose proof (_parse_msg_Ok _ _ _ E) as [_ Hlen].
  unfold _parse_msg in E.
  destruct (buff !! 22%nat); [|discriminate].
  destruct (bool_decide (slice 0 4 buff = lit "0250")); [|discriminate].
  destruct (msg_status_of _ _) as [st|] eqn:Est; [|discriminate].
  injection E as <- _. unfold msg_ok.
  cbn [msg_from msg_to msg_flags msg_status msg_type].
  rewrite !slice_length by lia. repeat split.
  unfold msg_status_of in Est. unfold msg_type_of, msg_tags.
  destruct (bool_decide (slice 18 20 buff = lit "11")) eqn:E11;
    destruct (bool_decide (slice 18 20 buff = lit "13")) eqn:E13;
    destruct (bool_decide (slice 18 20 buff = lit "19")) eqn:E19;
    cbn [orb] in Est;
    try (destruct (int16 _); [|discriminate]; injection Est as <-; set_solver).
  injection Est as <-. rewrite slice_length by lia. split; [reflexivity|].
  exists (slice 20 22 buff). rewrite slice_length by lia. auto.
Qed.

Lemma ack_ok_append (a : ack) (m : msg) :
  ack_ok a -> msg_ok m -> ack_ok (append_response a m).
Proof.
  intros (Hd & Hf & Hc & Hr) Hm. unfold ack_ok, append_response.
  cbn [ack_device ack_flags ack_command ack_response].
  repeat split; try assumption.
  apply Forall_app. split; [exact Hr | constructor; [exact Hm | constructor]].
Qed.

(** X5. Every Ack that [parse] returns has a deviceId of 6 and flags of
    2 characters and a command that is one of the three tags or the
    [unknown[..::..]] string of two command bytes; every Message in it
    has from and to of 6 and flags of 2 characters, an integer status
    with one of the three type tags, or else the [unknown[..::..]] string
    as status with the 2-character command byte as type. *)
Theorem parse_output_well_formed (buff : str) (acks : list ack) :
  parse buff = Some (Ok acks) -> Forall ack_ok acks.
Proof.
  apply (parse_loop_invariant (fun _ => True) ack_ok msg_ok); auto.
  - intros ? ? ? _. apply _parse_ack_ok.
  - intros ? ? ? _. apply _parse_msg_ok.
  - apply ack_ok_append.
Qed.

Lemma parse_output_well_formed_witness :
  Forall ack_ok
    [Ack (lit "AABBCC") (lit "0F") (lit "on")
       [Msg (lit "AABBCC") (lit "112233") (lit "01") (PInt 255) (lit "on")]].
Proof.
  apply (parse_output_well_formed
           (lit "0262AABBCC0F1100060250AABBCC1122330111FF0250AABBCC112233011300")).
  vm_compute. reflexivity.
Defined.

Lemma hexval_range (c : ascii) (v : Z) :
  hexval c = Some v -> (0 <= v <= 15)%Z.
Proof.
  unfold hexval. intros H.
  repeat match type of H with
         | (if ?b then _ else _) = _ =>
             let E := fresh "E" in
             destruct b eqn:E;
             [apply andb_prop in E as [Hlo Hhi];
              apply Nat.leb_le in Hlo, Hhi;
              injection H as <-; lia |]
         end.
  discriminate H.
Qed.

Lemma int16_hex_pair_value (a b : ascii) (va vb : Z) :
  is_hex a = true -> is_hex b = true ->
  hexval a = Some va -> hexval b = Some vb ->
  int16 [a; b] = Some (16 * va + vb)%Z.
Proof.
  intros Ha Hb Va Vb.
  destruct (is_hex_plain a Ha) as (Sa & Ma & Pa & Ua & _ & _ & _).
  destruct (is_hex_plain b Hb) as (Sb & _ & _ & Ub & Xb & XXb & _).
  unfold int16, strip. cbn [lstrip]. rewrite Sa. cbn [rev app lstrip].
  rewrite Sb. cbn [rev app]. rewrite Ma, Pa, Xb, XXb.
  rewrite andb_false_r. cbn [andb]. cbn [int16_digits].
  rewrite Ua, Va. rewrite Ub, Vb. reflexivity.
Qed.

Lemma msg_status_of_byte (cmd1 cmd2 : str) (z : Z) :
  hex_str cmd2 -> length cmd2 = 2%nat ->
  msg_status_of cmd1 cmd2 = Ok (PInt z) -> (0 <= z <= 255)%Z.
Proof.
  intros Hhex Hlen. unfold msg_status_of.
  destruct (_ || _); [|discriminate].
  destruct cmd2 as [|a [|b [|]]]; try discriminate Hlen.
  apply Forall_cons in Hhex as [Ha Hhex].
  apply Forall_cons in Hhex as [Hb _].
  destruct (is_hex_plain a Ha) as (_ & _ & _ & _ & _ & _ & va & Va).
  destruct (is_hex_plain b Hb) as (_ & _ & _ & _ & _ & _ & vb & Vb).
  rewrite (int16_hex_pair_value a b va vb Ha Hb Va Vb).
  intros [= <-].
  apply hexval_range in Va, Vb. lia.
Qed.

Lemma _parse_msg_byte (buff rest : str) (m : msg) :
  hex_str buff -> _parse_msg buff = Ok (m, rest) -> status_is_byte m.
Proof.
  intros Hhex E. pose proof (_parse_msg_Ok _ _ _ E) as [_ Hlen].
  unfold _parse_msg in E.
  destruct (buff !! 22%nat); [|discriminate].
  destruct (bool_decide (slice 0 4 buff = lit "0250")); [|discriminate].
  destruct (msg_status_of _ _) as [st|] eqn:Est; [|discriminate].
  injection E as <- _. unfold status_is_byte. cbn [msg_status].
  destruct st as [z|]; [|exact I].
  apply (msg_status_of_byte _ _ _ (hex_str_slice 20 22 _ Hhex)) in Est;
    [exact Est|].
  apply slice_length. lia.
Qed.

(** X6. On a buffer of hexadecimal characters, every integer status of
    a Message that [parse] returns is a byte, between 0 and 255. *)
Theorem parse_status_is_byte (buff : str) (acks : list ack) :
  hex_str buff ->
  parse buff = Some (Ok acks) ->
  Forall (fun a => Forall status_is_byte (ack_response a)) acks.
Proof.
  intros Hhex.
  apply (parse_loop_invariant hex_str
           (fun a => Forall status_is_byte (ack_response a)) status_is_byte).
  - intros n s. apply hex_str_drop.
  - intros b r a _ E. unfold _parse_ack in E.
    destruct (_ && _); [|discriminate]. injection E as <- _. constructor.
  - apply _parse_msg_byte.
  - intros a m Ha Hm. unfold append_response. cbn [ack_response].
    apply Forall_app. split; [exact Ha | constructor; [exact Hm | constructor]].
  - exact Hhex.
  - constructor.
Qed.

Lemma parse_status_is_byte_witness :
  Forall (fun a => Forall status_is_byte (ack_response a))
    [Ack (lit "AABBCC") (lit "0F") (lit "on")
       [Msg (lit "AABBCC") (lit "112233") (lit "01") (PInt 255) (lit "on")]].
Proof.
  apply (parse_status_is_byte
           (lit "0262AABBCC0F1100060250AABBCC1122330111FF0250AABBCC112233011300")).
  - apply hex_str_lit_check. reflexivity.
  - vm_compute. reflexivity.
Defined.

(** ** How many Acks a buffer can give *)

Lemma read_msgs_rest (fuel : nat) :
  forall (a a' : ack) (buff buff' : str) (e : exn),
    read_msgs fuel a buff = Some (a', buff', e) ->
    (length buff' <= length buff)%nat
    /\ (e = BufferParsingError -> (23 <= length buff')%nat).
Proof.
  induction fuel as [|fuel IH]; intros a a' buff buff' e; [discriminate|].
  cbn [read_msgs].
  destruct (_parse_msg buff) as [[m buff1]|e1] eqn:E.
  - apply _parse_msg_Ok in E as [-> _]. intros Hr.
    destruct (IH _ _ _ _ _ Hr) as [Hle He]. rewrite length_drop in Hle.
    split; [lia | exact He].
  - intros [= <- <- <-]. split; [lia|].
    intros ->. apply _parse_msg_flag_error, E.
Qed.

Lemma parse_loop_bound (fuel : nat) :
  forall (acc acks : list ack) (buff : str),
    parse_loop fuel acc buff = Some (Ok acks) ->
    exists news,
      acks = acc ++ news
      /\ (news = [] \/ (18 * length news + 23 <= length buff)%nat).
Proof.
  induction fuel as [|fuel IH]; intros acc acks buff; [discriminate|].
  cbn [parse_loop].
  destruct buff as [|c buff0] eqn:Eb.
  { intros [= <-]. exists []. rewrite app_nil_r. auto. }
  rewrite <- Eb in *. clear Eb c buff0.
  destruct (_parse_ack buff) as [[a buff1]|e1] eqn:E.
  - apply _parse_ack_Ok in E as [-> Hge].
    destruct (read_msgs fuel a (drop 18 buff)) as [[[a' buff'] e']|] eqn:Er;
      [|discriminate].
    destruct (read_msgs_rest _ _ _ _ _ _ Er) as [Hle He].
    rewrite length_drop in Hle.
    destruct e'; try discriminate; intros Hr;
      destruct (IH _ _ _ Hr) as (news & -> & Hn).
    + exists (a' :: news). rewrite <- app_assoc. split; [reflexivity|].
      right. specialize (He eq_refl). cbn [length].
      destruct Hn as [-> | Hn]; simpl; lia.
    + exists news. split; [reflexivity|].
      destruct Hn as [-> | Hn]; [auto | right; lia].
  - destruct e1; try discriminate.
    destruct (partition (lit "0262") buff) as [[b d] r] eqn:Ep.
    case_bool_decide.
    + intros [= <-]. exists []. rewrite app_nil_r. auto.
    + intros Hr. destruct (IH _ _ _ Hr) as (news & -> & Hn).
      exists news. split; [reflexivity|].
      destruct Hn as [-> | Hn]; [auto | right].
      apply partition_rest in Ep as [Heq | Hlt]; [congruence | lia].
Qed.

(** X7. [parse] returns no Ack from a buffer of fewer than 41
    characters, and from a longer one at most one Ack for every 18
    characters before the last 23. *)
Theorem parse_output_bound (buff : str) (acks : list ack) :
  parse buff = Some (Ok acks) ->
  acks = [] \/ (18 * length acks + 23 <= length buff)%nat.
Proof.
  intros H. destruct (parse_loop_bound _ _ _ _ H) as (news & -> & Hn).
  exact Hn.
Qed.

Lemma parse_output_bound_witness :
  [Ack (lit "AABBCC") (lit "0F") (lit "on") []] = []
  \/ (18 * length [Ack (lit "AABBCC") (lit "0F") (lit "on") []] + 23
      <= length (lit "0262AABBCC0F11000600000000000000000000000"))%nat.
Proof.
  apply (parse_output_bound (lit "0262AABBCC0F11000600000000000000000000000")).
  vm_compute. reflexivity.
Defined.

(** ** The Ack headers that are accepted *)

Lemma slice_then_drop (a b : nat) (s : str) :
  (a <= b)%nat -> slice a b s ++ drop b s = drop a s.
Proof.
  intros H. unfold slice.
  rewrite <- (take_drop (b - a) (drop a s)) at 2.
  rewrite drop_drop. replace (a + (b - a))%nat with b by lia. reflexivity.
Qed.

(** X8. [_parse_ack] accepts exactly the buffers that start with an Ack
    header: 0262, six characters of deviceId, two of flags, two of cmd1,
    two of cmd2 and 06.  It returns these fields and what follows the
    header. *)
Theorem parse_ack_accepts (buff rest : str) (a : ack) :
  _parse_ack buff = Ok (a, rest)
  <-> exists device_id flags cmd1 cmd2,
        length device_id = 6%nat /\ length flags = 2%nat
        /\ length cmd1 = 2%nat /\ length cmd2 = 2%nat
        /\ buff = ack_frame device_id flags cmd1 cmd2 ++ rest
        /\ a = Ack device_id flags (ack_command_of cmd1 cmd2) [].
Proof.
  split.
  - intros E. pose proof (_parse_ack_Ok _ _ _ E) as [-> Hlen].
    unfold _parse_ack in E.
    destruct (bool_decide (slice 0 4 buff = lit "0262")) eqn:E0; [|discriminate].
    destruct (bool_decide (slice 16 18 buff = lit "06")) eqn:E6; [|discriminate].
    apply bool_decide_eq_true_1 in E0, E6.
    cbn [andb] in E. injection E as <-.
    exists (slice 4 10 buff), (slice 10 12 buff), (slice 12 14 buff),
      (slice 14 16 buff).
    rewrite !slice_length by lia. repeat split.
    unfold ack_frame. rewrite <- E0, <- E6, <- !app_assoc.
    rewrite !slice_then_drop by lia. symmetry. apply drop_0.
  - intros (device_id & flags & cmd1 & cmd2 & Hid & Hfl & Hc1 & Hc2 & -> & ->).
    apply _parse_ack_frame; assumption.
Qed.

(** ** More on the command encoder *)

Lemma device_on_cmd2_checked :
  forallb
    (fun n : nat =>
       bool_decide (int16 (device_on_cmd2 (Z.of_nat n)) = Some (Z.of_nat n))
       && forallb is_hex (device_on_cmd2 (Z.of_nat n))
       && (length (device_on_cmd2 (Z.of_nat n)) =? (if (n <? 16)%nat then 1 else 2))%nat)
    (seq 0 256) = true.
Proof. vm_compute. reflexivity. Qed.

Lemma device_on_cmd2_byte (level : Z) :
  (0 <= level <= 255)%Z ->
  int16 (device_on_cmd2 level) = Some level
  /\ hex_str (device_on_cmd2 level)
  /\ length (device_on_cmd2 level) = (if (level <? 16)%Z then 1 else 2)%nat.
Proof.
  intros Hl.
  pose proof device_on_cmd2_checked as H.
  rewrite forallb_forall in H.
  specialize (H (Z.to_nat level)).
  rewrite Z2Nat.id in H by lia.
  assert (Hin : In (Z.to_nat level) (seq 0 256)) by (apply in_seq; lia).
  apply H in Hin.
  apply andb_prop in Hin as [Hin Hlen]. apply andb_prop in Hin as [Hint Hhex].
  apply bool_decide_eq_true_1 in Hint. apply Nat.eqb_eq in Hlen.
  split; [exact Hint|]. split; [apply hex_str_lit_check, Hhex|].
  rewrite Hlen.
  destruct (Z.ltb_spec level 16); destruct (Nat.ltb_spec (Z.to_nat level) 16);
    (reflexivity || lia).
Qed.

(** X9. For every level from 0 to 255, the cmd2 that [device_on]
    computes is written in hexadecimal digits and [int(cmd2, 16)] gives
    the level back; it has two characters from level 16 on and one
    character below. *)
Theorem device_on_level_round_trip (level : Z) :
  (0 <= level <= 255)%Z ->
  int16 (device_on_cmd2 level) = Some level
  /\ hex_str (device_on_cmd2 level)
  /\ length (device_on_cmd2 level) = (if (level <? 16)%Z then 1 else 2)%nat.
Proof. apply device_on_cmd2_byte. Qed.

Lemma device_on_level_round_trip_witness :
  int16 (device_on_cmd2 128) = Some 128%Z
  /\ hex_str (device_on_cmd2 128)
  /\ length (device_on_cmd2 128) = 2%nat.
Proof. apply (device_on_level_round_trip 128). lia. Defined.

(** X10. For a device id of six hexadecimal characters, the hub's
    answer to the command of [device_off], of [device_status] and, for a
    level from 16 to 255, of [device_on] is read by [_parse_ack] as the
    Ack of the lower-cased device with flags [0f] and command [off],
    [status_request] and [on], and nothing is left of it. *)
Theorem device_commands_are_acknowledged (device_id : str) (level : Z) :
  hex_field 6 device_id ->
  (16 <= level <= 255)%Z ->
  _parse_ack (hub_response (command_msg device_id (lit "13") (lit "00") (lit "0F")))
  = Ok (Ack (lower device_id) (lit "0f") (lit "off") [], [])
  /\ _parse_ack (hub_response (command_msg device_id (lit "19") (lit "00") (lit "0F")))
     = Ok (Ack (lower device_id) (lit "0f") (lit "status_request") [], [])
  /\ _parse_ack (hub_response
                   (command_msg device_id (lit "11") (device_on_cmd2 level) (lit "0F")))
     = Ok (Ack (lower device_id) (lit "0f") (lit "on") [], []).
Proof.
  intros [Hid _] Hl.
  destruct (device_on_cmd2_byte level ltac:(lia)) as (_ & _ & Hlen).
  destruct (Z.ltb_spec level 16); [lia|].
  rewrite !hub_response_frame.
  rewrite !_parse_ack_frame by (rewrite ?lower_length; (assumption || reflexivity)).
  repeat split.
Qed.

Lemma device_commands_are_acknowledged_witness :
  _parse_ack (hub_response (command_msg (lit "AABBCC") (lit "13") (lit "00") (lit "0F")))
  = Ok (Ack (lower (lit "AABBCC")) (lit "0f") (lit "off") [], [])
  /\ _parse_ack (hub_response (command_msg (lit "AABBCC") (lit "19") (lit "00") (lit "0F")))
     = Ok (Ack (lower (lit "AABBCC")) (lit "0f") (lit "status_request") [], [])
  /\ _parse_ack (hub_response
                   (command_msg (lit "AABBCC") (lit "11") (device_on_cmd2 255) (lit "0F")))
     = Ok (Ack (lower (lit "AABBCC")) (lit "0f") (lit "on") [], []).
Proof.
  apply (device_commands_are_acknowledged (lit "AABBCC") 255); [|lia].
  split; [reflexivity | apply hex_str_lit_check; reflexivity].
Defined.

(** ** More on [poll] *)

Lemma startswith_cons_ne (c0 c : ascii) (sep s : str) :
  c <> c0 -> startswith (c0 :: sep) (c :: s) = false.
Proof.
  intros Hne. unfold startswith. apply bool_decide_eq_false_2.
  cbn [length take]. intros [= H _]. contradiction.
Qed.

(** A run of hexadecimal characters holds no occurrence of a separator
    that starts with another character. *)
Lemma no_match_in_hex (c0 : ascii) (sep payload s : str) :
  is_hex c0 = false -> hex_str payload ->
  no_match_before (c0 :: sep) (length payload) (payload ++ s).
Proof.
  intros Hc0 Hhex i Hi.
  rewrite drop_app_le by lia.
  destruct (drop i payload) as [|c rest] eqn:Ed.
  { apply (f_equal length) in Ed. rewrite length_drop in Ed. simpl in Ed. lia. }
  cbn [app]. apply startswith_cons_ne. intros ->.
  assert (Hc : is_hex c0 = true).
  { assert (Hd : hex_str (drop i payload)) by (apply hex_str_drop, Hhex).
    rewrite Ed in Hd. apply Forall_cons in Hd. tauto. }
  congruence.
Qed.

Lemma partition_open_marker_in_close (post : str) :
  partition (lit "<BS>") (lit "</BS>" ++ post)
  = let '(b, d, a) := partition (lit "<BS>") post in (lit "</BS>" ++ b, d, a).
Proof.
  apply partition_skip_prefix. intros i Hi.
  change (length (lit "</BS>")) with 5%nat in Hi.
  do 5 (destruct i as [|i];
        [apply bool_decide_eq_false_2; cbn; intros [=]|]).
  lia.
Qed.

Lemma poll_data_well_formed (pre payload post : str) :
  no_match_before (lit "<BS>") (length pre)
    (pre ++ lit "<BS>" ++ payload ++ lit "</BS>" ++ post) ->
  hex_str payload ->
  poll_data (pre ++ lit "<BS>" ++ payload ++ lit "</BS>" ++ post)
  = Ok (take (length payload - 2) payload).
Proof.
  intros Hpre Hhex. unfold poll_data, split_second, split_first.
  rewrite partition_skip_prefix by exact Hpre.
  rewrite partition_found_here by reflexivity.
  change (drop (length (lit "<BS>")) (lit "<BS>" ++ payload ++ lit "</BS>" ++ post))
    with (payload ++ lit "</BS>" ++ post).
  lazymatch goal with
  | |- context C [match lit "<BS>" with [] => _ | _ :: _ => ?b end] =>
      let g := context C [b] in change g
  end.
  rewrite (partition_skip_prefix (lit "<BS>") payload)
    by (apply (no_match_in_hex "<"%char); [reflexivity | exact Hhex]).
  rewrite partition_open_marker_in_close.
  destruct (partition (lit "<BS>") post) as [[b d] a].
  rewrite (partition_skip_prefix (lit "</BS>") payload)
    by (apply (no_match_in_hex "<"%char); [reflexivity | exact Hhex]).
  rewrite partition_found_here by reflexivity.
  rewrite app_nil_r. reflexivity.
Qed.

(** X11. When the answer of the hub holds a buffer of hexadecimal
    characters between the first [<BS>] and the [</BS>] that follows it,
    [poll] parses that buffer without its last two characters, whatever
    stands before and after the markers. *)
Theorem poll_reads_payload (pre payload post : str) :
  no_match_before (lit "<BS>") (length pre)
    (pre ++ lit "<BS>" ++ payload ++ lit "</BS>" ++ post) ->
  hex_str payload ->
  poll (pre ++ lit "<BS>" ++ payload ++ lit "</BS>" ++ post)
  = parse (take (length payload - 2) payload).
Proof.
  intros Hpre Hhex. unfold poll.
  rewrite poll_data_well_formed by assumption. reflexivity.
Qed.

Lemma poll_reads_payload_witness :
  poll (lit "<response>" ++ lit "<BS>"
        ++ lit "0262AABBCC0F110006000000000000000000000000000" ++ lit "</BS>"
        ++ lit "</response>")
  = parse (take (length (lit "0262AABBCC0F110006000000000000000000000000000") - 2)
             (lit "0262AABBCC0F110006000000000000000000000000000")).
Proof.
  apply (poll_reads_payload (lit "<response>")
           (lit "0262AABBCC0F110006000000000000000000000000000")
           (lit "</response>")).
  - intros i Hi. change (length (lit "<response>")) with 10%nat in Hi.
    do 10 (destruct i as [|i]; [reflexivity|]). lia.
  - apply hex_str_lit_check. reflexivity.
Defined.

(** X12. When [<BS>] occurs nowhere in the answer of the hub, [poll]
    raises [IndexError] and nothing is parsed. *)
Theorem poll_without_marker (text : str) :
  no_match_before (lit "<BS>") (length text) text ->
  poll text = Some (Raise IndexError).
Proof.
  intros Hno. unfold poll, poll_data, split_second.
  rewrite partition_not_found by (exact Hno || discriminate). reflexivity.
Qed.

Lemma poll_without_marker_witness :
  poll (lit "<html>busy</html>") = Some (Raise IndexError).
Proof.
  apply (poll_without_marker (lit "<html>busy</html>")).
  intros i Hi. change (length (lit "<html>busy</html>")) with 17%nat in Hi.
  do 17 (destruct i as [|i]; [reflexivity|]). lia.
Defined.

(** ** More on the subscribe loop *)

Section SubscribeGrowth.

Variable ttl : Z.
Variable fp : ack -> Z.

Lemma observe_all_dom (obs : list (Z * ack)) :
  forall st : sub_state,
    dom (recent_msgs (observe_all ttl fp st obs))
    = dom (recent_msgs st) ∪ list_to_set (map (fun o => fp (snd o)) obs).
Proof.
  induction obs as [|[now m] obs IH]; intros st.
  - cbn [map list_to_set]. set_solver.
  - rewrite observe_all_cons, IH. unfold observe at 1. cbn [recent_msgs].
    rewrite dom_insert_L. cbn [map list_to_set snd]. set_solver.
Qed.

(** X13. The dict of recent records only grows: after a run of loop
    bodies its keys are the keys it had and the hashes of the records
    observed; no key is ever removed. *)
Theorem recent_msgs_never_forgets (st : sub_state) (obs : list (Z * ack)) :
  dom (recent_msgs (observe_all ttl fp st obs))
  = dom (recent_msgs st) ∪ list_to_set (map (fun o => fp (snd o)) obs).
Proof. apply observe_all_dom. Qed.

Lemma for_msgs_cons (clock : nat -> Z) (st : sub_state) (m : ack) (msgs : list ack) :
  for_msgs ttl fp clock st (m :: msgs)
  = for_msgs ttl fp (fun i => clock (S i)) (observe ttl fp st (clock 0%nat, m)) msgs.
Proof. reflexivity. Qed.

(** X14. Records whose hashes differ from one another and were never
    seen are all handed to the callback, in the order of the list,
    whatever the clock reads. *)
Theorem unseen_records_all_delivered
  (clock : nat -> Z) (st : sub_state) (msgs : list ack) :
  (forall m, m ∈ msgs -> recent_msgs st !! fp m = None) ->
  NoDup (map fp msgs) ->
  calls (for_msgs ttl fp clock st msgs) = calls st ++ msgs.
Proof.
  revert clock st. induction msgs as [|m msgs IH]; intros clock st Hnew Hnd.
  - symmetry. apply app_nil_r.
  - rewrite for_msgs_cons. cbn [map] in Hnd. apply NoDup_cons in Hnd as [Hm Hnd].
    rewrite IH.
    + rewrite observe_calls, Hnew by (left). cbn [unseen_or_stale].
      rewrite <- app_assoc. reflexivity.
    + intros m' Hm'. rewrite observe_recent.
      destruct (decide (fp m = fp m')) as [Heq | Hne].
      * exfalso. apply Hm. rewrite Heq. apply list_elem_of_fmap_2. exact Hm'.
      * apply Hnew. right. exact Hm'.
    + exact Hnd.
Qed.

Lemma subscribe_iter_grows (st st' : sub_state) (cycle : str * (nat -> Z)) :
  subscribe_iter ttl fp st cycle = Some (Ok st') ->
  calls st `prefix_of` calls st'
  /\ dom (recent_msgs st) ⊆ dom (recent_msgs st').
Proof.
  destruct cycle as [text clock]. unfold subscribe_iter.
  destruct (poll text) as [[msgs|e]|]; try discriminate.
  intros [= <-]. unfold for_msgs. split.
  - destruct (observe_all_news ttl fp (imap (fun i m => (clock i, m)) msgs) st)
      as (news & -> & _).
    apply prefix_app_r. reflexivity.
  - rewrite observe_all_dom. set_solver.
Qed.

(** X15. Over any number of turns of the subscribe loop that end
    without an exception, the calls made before remain, in their order,
    the first calls made, and every hash recorded before is still
    recorded. *)
Theorem subscribe_only_grows
  (cycles : list (str * (nat -> Z))) (st st' : sub_state) :
  subscribe_from ttl fp st cycles = Some (Ok st') ->
  calls st `prefix_of` calls st'
  /\ dom (recent_msgs st) ⊆ dom (recent_msgs st').
Proof.
  revert st. induction cycles as [|cycle cycles IH]; intros st.
  - intros [= <-]. split; reflexivity.
  - cbn [subscribe_from].
    destruct (subscribe_iter ttl fp st cycle) as [[st1|e]|] eqn:E;
      try discriminate.
    intros Hr. destruct (subscribe_iter_grows _ _ _ E) as [Hc Hd].
    destruct (IH _ Hr) as [Hc' Hd']. split; [|set_solver].
    transitivity (calls st1); assumption.
Qed.

(** The turns of the subscribe loop compose. *)
Lemma subscribe_from_app
  (cycles cycles' : list (str * (nat -> Z))) (st : sub_state) :
  subscribe_from ttl fp st (cycles ++ cycles')
  = match subscribe_from ttl fp st cycles with
    | Some (Ok st') => subscribe_from ttl fp st' cycles'
    | r => r
    end.
Proof.
  revert st. induction cycles as [|cycle cycles IH]; intros st; [reflexivity|].
  cbn [app subscribe_from].
  destruct (subscribe_iter ttl fp st cycle) as [[st1|e]|]; [apply IH | reflexivity..].
Qed.

(** X16. The subscribe loop does not catch what [poll] raises: when,
    after turns that went well, a poll raises an exception, the loop ends
    with that exception, whatever the hub would have answered afterwards;
    no later turn runs and the state reached is lost to the caller. *)
Theorem subscribe_stops_at_exception
  (cycles later : list (str * (nat -> Z))) (st st1 : sub_state)
  (text : str) (clock : nat -> Z) (e : exn) :
  subscribe_from ttl fp st cycles = Some (Ok st1) ->
  poll text = Some (Raise e) ->
  subscribe_from ttl fp st (cycles ++ (text, clock) :: later) = Some (Raise e).
Proof.
  intros Hgood Hbad. rewrite subscribe_from_app, Hgood.
  cbn [subscribe_from]. unfold subscribe_iter. rewrite Hbad. reflexivity.
Qed.

End SubscribeGrowth.

Lemma unseen_records_all_delivered_witness :
  calls (for_msgs 60 sample_hash (fun _ => 0%Z) sub_init [sample_ack; other_ack])
  = calls sub_init ++ [sample_ack; other_ack].
Proof.
  apply (unseen_records_all_delivered 60 sample_hash (fun _ => 0%Z) sub_init
           [sample_ack; other_ack]).
  - intros m _. reflexivity.
  - vm_compute. repeat constructor; set_solver.
Defined.

Lemma subscribe_only_grows_witness :
  calls (observe_all 60 sample_hash sub_init [(0%Z, other_ack)])
    `prefix_of`
    calls (for_msgs 60 sample_hash (fun _ => 10%Z)
             (for_msgs 60 sample_hash (fun _ => 5%Z)
                (observe_all 60 sample_hash sub_init [(0%Z, other_ack)])
                [sample_ack])
             [sample_ack])
  /\ dom (recent_msgs (observe_all 60 sample_hash sub_init [(0%Z, other_ack)]))
     ⊆ dom (recent_msgs
              (for_msgs 60 sample_hash (fun _ => 10%Z)
                 (for_msgs 60 sample_hash (fun _ => 5%Z)
                    (observe_all 60 sample_hash sub_init [(0%Z, other_ack)])
                    [sample_ack])
                 [sample_ack])).
Proof.
  apply (subscribe_only_grows 60 sample_hash
           [(sample_text, fun _ => 5%Z); (sample_text, fun _ => 10%Z)]
           (observe_all 60 sample_hash sub_init [(0%Z, other_ack)])).
  cbn [subscribe_from]. unfold subscribe_iter.
  rewrite poll_sample_text. reflexivity.
Defined.

Lemma poll_busy_text : poll (lit "<html>busy</html>") = Some (Raise IndexError).
Proof. vm_compute. reflexivity. Qed.

Lemma subscribe_stops_at_exception_witness :
  subscribe_from 60 sample_hash
    (observe_all 60 sample_hash sub_init [(0%Z, other_ack)])
    ([(sample_text, fun _ => 5%Z)]
     ++ (lit "<html>busy</html>", fun _ => 10%Z)
     :: [(sample_text, fun _ => 15%Z)])
  = Some (Raise IndexError).
Proof.
  apply (subscribe_stops_at_exception 60 sample_hash
           [(sample_text, fun _ => 5%Z)] [(sample_text, fun _ => 15%Z)]
           (observe_all 60 sample_hash sub_init [(0%Z, other_ack)])
           (for_msgs 60 sample_hash (fun _ => 5%Z)
              (observe_all 60 sample_hash sub_init [(0%Z, other_ack)])
              [sample_ack])
           (lit "<html>busy</html>") (fun _ => 10%Z) IndexError).
  - cbn [subscribe_from]. unfold subscribe_iter.
    rewrite poll_sample_text. reflexivity.
  - exact poll_busy_text.
Defined.

Example selected_sample :
  selected 60 sample_hash ∅
    [(0, sample_ack); (10, sample_ack); (20, other_ack); (100, sample_ack)]%Z
  = [sample_ack; other_ack; sample_ack].
Proof. vm_compute. reflexivity. Qed.

Example subscribe_only_grows_sample :
  calls (observe_all 60 sample_hash sub_init [(0%Z, other_ack)]) = [other_ack]
  /\ calls (for_msgs 60 sample_hash (fun _ => 10%Z)
              (for_msgs 60 sample_hash (fun _ => 5%Z)
                 (observe_all 60 sample_hash sub_init [(0%Z, other_ack)])
                 [sample_ack])
              [sample_ack])
     = [other_ack; sample_ack].
Proof. vm_compute. split; reflexivity. Qed.

(** ** The address of the hub *)

Lemma split_from_free (cur s : str) :
  ":"%char ∉ s -> split_from (lit ":") 0 cur s = [cur ++ s].
Proof.
  revert cur. induction s as [|c s IH]; intros cur Hs.
  - cbn [split_from]. rewrite app_nil_r. reflexivity.
  - cbn [split_from]. apply not_elem_of_cons in Hs as [Hc Hs].
    change (startswith (lit ":") (c :: s)) with (startswith [":"%char] (c :: s)).
    rewrite (startswith_cons_ne ":"%char c [] s) by congruence.
    rewrite IH by exact Hs. rewrite <- app_assoc. reflexivity.
Qed.

Lemma split_from_colon (cur ip rest : str) :
  ":"%char ∉ ip ->
  split_from (lit ":") 0 cur (ip ++ lit ":" ++ rest)
  = (cur ++ ip) :: split_from (lit ":") 0 [] rest.
Proof.
  revert cur. induction ip as [|c ip IH]; intros cur Hs.
  - cbn [app lit list_ascii_of_string split_from].
    rewrite app_nil_r. reflexivity.
  - cbn [app split_from]. apply not_elem_of_cons in Hs as [Hc Hs].
    change (lit ":") with [":"%char] at 1.
    rewrite (startswith_cons_ne ":"%char c [] _) by congruence.
    rewrite IH by exact Hs. rewrite <- app_assoc. reflexivity.
Qed.

(** X17. From an address [scheme//ip:port] in which [//] first occurs
    after the scheme and neither the ip nor the port holds a colon, the
    end of [discover_local_hub] returns the ip and the port. *)
Theorem host_port_of_address (scheme ip port : str) :
  no_match_before (lit "//") (length scheme)
    (scheme ++ lit "//" ++ ip ++ lit ":" ++ port) ->
  ":"%char ∉ ip -> ":"%char ∉ port ->
  host_port_of (scheme ++ lit "//" ++ ip ++ lit ":" ++ port) = Ok (ip, port).
Proof.
  intros Hs Hip Hport. unfold host_port_of.
  rewrite partition_skip_prefix by exact Hs.
  rewrite partition_found_here by reflexivity.
  change (drop (length (lit "//")) (lit "//" ++ ip ++ lit ":" ++ port))
    with (ip ++ lit ":" ++ port).
  unfold split. rewrite split_from_colon by exact Hip.
  rewrite split_from_free by exact Hport. reflexivity.
Qed.

Lemma host_port_of_address_witness :
  host_port_of (hub_url (lit "192.168.1.10") (lit "25105"))
  = Ok (lit "192.168.1.10", lit "25105").
Proof.
  apply (host_port_of_address (lit "http:") (lit "192.168.1.10") (lit "25105")).
  - intros i Hi. change (length (lit "http:")) with 5%nat in Hi.
    do 5 (destruct i as [|i]; [reflexivity|]). lia.
  - vm_compute. set_solver.
  - vm_compute. set_solver.
Defined.

(** X18. When no colon follows the first [//] of the address, also when
    the address holds no [//] at all, the unpacking of [ip, port] raises
    [ValueError]. *)
Theorem host_port_of_without_port (local_url : str) :
  ":"%char ∉ snd (partition (lit "//") local_url) ->
  host_port_of local_url = Raise ValueError.
Proof.
  intros H. unfold host_port_of.
  destruct (partition (lit "//") local_url) as [[before delim] local] eqn:E.
  cbn [snd] in H.
  unfold split. rewrite split_from_free by exact H.
  reflexivity.
Qed.

Lemma host_port_of_without_port_witness :
  host_port_of (lit "http://192.168.1.10/") = Raise ValueError.
Proof.
  apply (host_port_of_without_port (lit "http://192.168.1.10/")).
  vm_compute. set_solver.
Defined.

(** ** A Message that is followed by more of the buffer *)

Lemma parse_loop_ack_message_then_rest
  (device_id flags cmd1 cmd2 from to flags' cmd1' cmd2' rest : str)
  (status : pyval) (fuel : nat) :
  length device_id = 6%nat -> length flags = 2%nat ->
  length cmd1 = 2%nat -> length cmd2 = 2%nat ->
  length from = 6%nat -> length to = 6%nat -> length flags' = 2%nat ->
  length cmd1' = 2%nat -> length cmd2' = 2%nat ->
  msg_status_of cmd1' cmd2' = Ok status ->
  (21 <= length rest)%nat ->
  startswith (lit "0250") (cmd2' ++ rest) = false ->
  (1 < fuel)%nat ->
  parse_loop (S fuel) []
    (ack_frame device_id flags cmd1 cmd2
     ++ msg_frame from to flags' cmd1' cmd2' ++ rest)
  = prepend_acks
      [Ack device_id flags (ack_command_of cmd1 cmd2)
         [Msg from to flags' status (msg_type_of cmd1')]]
      (parse_loop fuel [] (cmd2' ++ rest)).
Proof.
  intros Hid Hfl Hc1 Hc2 Hf Ht Hfl' Hc1' Hc2' Hst Hlen Hflag Hfuel.
  pose proof (ack_frame_length _ _ _ _ Hid Hfl Hc1 Hc2) as La.
  cbn [parse_loop].
  destruct (ack_frame device_id flags cmd1 cmd2 ++ _) as [|c buff0] eqn:Eb.
  { apply (f_equal length) in Eb. rewrite length_app, La in Eb. discriminate Eb. }
  rewrite <- Eb. clear Eb c buff0.
  rewrite _parse_ack_frame by assumption.
  destruct fuel as [|[|fuel']]; [lia | lia |].
  cbn [read_msgs].
  rewrite (_parse_msg_frame _ _ _ _ _ _ status) by (assumption || lia).
  rewrite _parse_msg_no_flag by (rewrite ?length_app; (assumption || lia)).
  apply parse_loop_acc.
Qed.

(** X19. An Ack header, a Message frame and at least 21 more characters
    that do not continue the [cmd2] of the Message to the flag 0250 are
    read as the Ack with that one Message, and the buffer is read on from
    the [cmd2] of the Message, not from the character after it. *)
Theorem parse_ack_message_then_rest
  (device_id flags cmd1 cmd2 from to flags' cmd1' cmd2' rest : str)
  (status : pyval) :
  length device_id = 6%nat -> length flags = 2%nat ->
  length cmd1 = 2%nat -> length cmd2 = 2%nat ->
  length from = 6%nat -> length to = 6%nat -> length flags' = 2%nat ->
  length cmd1' = 2%nat -> length cmd2' = 2%nat ->
  msg_status_of cmd1' cmd2' = Ok status ->
  (21 <= length rest)%nat ->
  startswith (lit "0250") (cmd2' ++ rest) = false ->
  parse (ack_frame device_id flags cmd1 cmd2
         ++ msg_frame from to flags' cmd1' cmd2' ++ rest)
  = prepend_acks
      [Ack device_id flags (ack_command_of cmd1 cmd2)
         [Msg from to flags' status (msg_type_of cmd1')]]
      (parse (cmd2' ++ rest)).
Proof.
  intros Hid Hfl Hc1 Hc2 Hf Ht Hfl' Hc1' Hc2' Hst Hlen Hflag.
  pose proof (ack_frame_length _ _ _ _ Hid Hfl Hc1 Hc2) as La.
  pose proof (msg_frame_length _ _ _ _ _ Hf Ht Hfl' Hc1' Hc2') as Lm.
  assert (Hl : length (ack_frame device_id flags cmd1 cmd2
                       ++ msg_frame from to flags' cmd1' cmd2' ++ rest)
               = (40 + length rest)%nat)
    by (rewrite !length_app, La, Lm; lia).
  unfold parse at 1.
  rewrite (parse_loop_ack_message_then_rest _ _ _ _ _ _ _ _ _ _ status)
    by (assumption || lia).
  rewrite parse_fuel by (rewrite length_app; lia). reflexivity.
Qed.

Lemma parse_ack_message_then_rest_witness :
  parse (ack_frame (lit "AABBCC") (lit "0F") (lit "11") (lit "00")
         ++ msg_frame (lit "AABBCC") (lit "112233") (lit "01") (lit "11") (lit "FF")
         ++ lit "0262AABBCC0F130006000")
  = prepend_acks
      [Ack (lit "AABBCC") (lit "0F") (lit "on")
         [Msg (lit "AABBCC") (lit "112233") (lit "01") (PInt 255) (lit "on")]]
      (parse (lit "FF" ++ lit "0262AABBCC0F130006000")).
Proof.
  apply (parse_ack_message_then_rest
           (lit "AABBCC") (lit "0F") (lit "11") (lit "00")
           (lit "AABBCC") (lit "112233") (lit "01") (lit "11") (lit "FF")
           (lit "0262AABBCC0F130006000") (PInt 255)); reflexivity.
Defined.
